(** * Worker pool (internal/workerpool): a shallow embedding and its properties

    The Go package [workerpool] is embedded as state-passing functions over
    records that mirror its structs.  Integers of type [int64] (and
    [time.Duration], which is an [int64] count of nanoseconds) are values of
    [Z] with the wrap-around of Go's arithmetic written out.  Channels,
    read/write mutexes, the wait group and the cancellation context are
    small records with the operations of the Go runtime that the package
    uses.  [*Metrics] is a pointer: the metrics live in a heap and the pool
    holds their address.

    The calls of the package are functions from the state before to the
    outcome of the call; where calls race ([Submit] with [Stop],
    [GetMetrics] with [updateMetrics]) they are also given step by step,
    and every interleaving of their steps is considered.  Of the loops of
    the dispatcher and of the workers the model keeps what the other
    operations see: that they are spawned, that the dispatcher receives
    from the queue, that they return on cancellation, and what a worker
    does with a task ([processTask]).

    Console output ([fmt.Printf]) is not modelled. *)

From Stdlib Require Import ZArith Lia.
From stdpp Require Import base option list gmap strings.

Local Open Scope Z_scope.

(** ** Go's [int64] *)

Module Int64.

Definition min_int : Z := - 2 ^ 63.
Definition max_int : Z := 2 ^ 63 - 1.

Definition in_range (z : Z) : Prop := min_int <= z <= max_int.

(** Two's complement wrap-around of a mathematical integer. *)
Definition wrap (z : Z) : Z := (z + 2 ^ 63) mod 2 ^ 64 - 2 ^ 63.

Definition add (x y : Z) : Z := wrap (x + y).

(** Go's [/] truncates toward zero. *)
Definition quo (x y : Z) : Z := wrap (Z.quot x y).

End Int64.

(** ** Outcomes of a call

    A call returns, parks its goroutine on a lock or a channel, or panics. *)

Inductive outcome (A : Type) : Type :=
  | Returns (a : A)
  | Blocks
  | Panics (msg : string).

Arguments Returns {A} a.
Arguments Blocks {A}.
Arguments Panics {A} msg.

Global Instance outcome_ret : MRet outcome := fun A a => Returns a.

Global Instance outcome_bind : MBind outcome := fun A B k c =>
  match c with
  | Returns a => k a
  | Blocks => Blocks
  | Panics msg => Panics msg
  end.

(** ** [sync.RWMutex]

    A writer excludes everybody, readers exclude writers.  Go also keeps
    new readers out while a writer waits; the model lets them in, which
    only adds interleavings. *)

Record RWMutex : Type := mkRWMutex {
  writer : bool;      (* held by a writer *)
  readers : nat       (* number of readers holding it *)
}.

Definition unlocked : RWMutex := mkRWMutex false 0.

Definition Lock (m : RWMutex) : outcome RWMutex :=
  if writer m then Blocks
  else match readers m with
       | O => Returns (mkRWMutex true 0)
       | S _ => Blocks
       end.

Definition Unlock (m : RWMutex) : outcome RWMutex :=
  if writer m then Returns (mkRWMutex false (readers m))
  else Panics "sync: Unlock of unlocked RWMutex".

Definition RLock (m : RWMutex) : outcome RWMutex :=
  if writer m then Blocks
  else Returns (mkRWMutex false (S (readers m))).

Definition RUnlock (m : RWMutex) : outcome RWMutex :=
  match readers m with
  | O => Panics "sync: RUnlock of unlocked RWMutex"
  | S n => Returns (mkRWMutex (writer m) n)
  end.

(** ** Errors (errors.go)

    The three package-level error values, and the errors that handlers
    build themselves.  Go's [error] is an interface: [None] is [nil]. *)

Inductive error_value : Type :=
  | ErrPoolNotStarted
  | ErrPoolStopped
  | ErrQueueFull
  | HandlerError (msg : string).

Definition error : Type := option error_value.

Definition Error (e : error_value) : string :=
  match e with
  | ErrPoolNotStarted => "worker pool não foi iniciado"
  | ErrPoolStopped => "worker pool foi parado"
  | ErrQueueFull => "fila de tarefas está cheia"
  | HandlerError msg => msg
  end.

Global Instance error_value_eq_dec : EqDecision error_value.
Proof. solve_decision. Defined.

(** ** Channels

    The part of the runtime's [hchan] that the package relies on: the
    capacity, the buffered elements (oldest first), the closed flag, the
    number of goroutines parked in a receive, and the elements of the
    senders parked in a send.  [handed] records, oldest first, the elements
    that a send passed directly to a parked receiver. *)

Record chan (A : Type) : Type := mkChan {
  dataqsiz : Z;
  buf : list A;
  closed : bool;
  recvq : nat;
  sendq : list A;
  handed : list A
}.

Arguments mkChan {A}.
Arguments dataqsiz {A}.
Arguments buf {A}.
Arguments closed {A}.
Arguments recvq {A}.
Arguments sendq {A}.
Arguments handed {A}.

(** [make(chan A, size)] for [0 <= size].  The allocation is taken to
    succeed: the limit that the runtime puts on the size of a buffer is
    outside the model. *)
Definition make_chan {A : Type} (size : Z) : chan A :=
  mkChan size [] false 0 [] [].

Definition qcount {A : Type} (c : chan A) : Z := Z.of_nat (length (buf c)).

(** The send case of a [select] can proceed: on a closed channel (it
    panics), with a parked receiver, or with a free slot in the buffer. *)
Definition send_ready {A : Type} (c : chan A) : bool :=
  closed c || negb (Nat.eqb (recvq c) 0) || (qcount c <? dataqsiz c).

(** A send that can proceed. *)
Definition chansend {A : Type} (c : chan A) (x : A) : outcome (chan A) :=
  if closed c then Panics "send on closed channel"
  else match recvq c with
       | S n => Returns (mkChan (dataqsiz c) (buf c) false n (sendq c) (handed c ++ [x]))
       | O =>
         if qcount c <? dataqsiz c
         then Returns (mkChan (dataqsiz c) (buf c ++ [x]) false 0 (sendq c) (handed c))
         else Blocks
       end.

(** The statement [c <- x]: as [chansend], but a sender that cannot proceed
    parks with its element in [sendq] and the call does not return. *)
Definition chansend_park {A : Type} (c : chan A) (x : A) : chan A :=
  mkChan (dataqsiz c) (buf c) (closed c) (recvq c) (sendq c ++ [x]) (handed c).

(** [close(c)]: the parked receivers are released (each receives the zero
    value) and the parked senders are released (each panics). *)
Definition closechan {A : Type} (c : chan A) : outcome (chan A) :=
  if closed c then Panics "close of closed channel"
  else Returns (mkChan (dataqsiz c) (buf c) true 0 [] (handed c)).

(** A goroutine parks in a receive on [c]. *)
Definition chanrecv_park {A : Type} (c : chan A) : chan A :=
  mkChan (dataqsiz c) (buf c) (closed c) (S (recvq c)) (sendq c) (handed c).

(** ** Metrics *)

Record Metrics : Type := mkMetrics {
  TasksProcessed : Z;
  TasksFailed : Z;
  TotalDuration : Z;
  AverageDuration : Z;
  metrics_mu : RWMutex
}.

(** The zero value [Metrics{}]. *)
Definition Metrics_zero : Metrics := mkMetrics 0 0 0 0 unlocked.

Definition with_metrics_mu (mu' : RWMutex) (m : Metrics) : Metrics :=
  mkMetrics (TasksProcessed m) (TasksFailed m) (TotalDuration m)
            (AverageDuration m) mu'.

(** Addresses of [Metrics] objects. *)
Definition loc : Type := positive.

Section WorkerPool.

(** The values behind Go's [interface{}]: payloads and handler outputs. *)
Context {value : Type}.

(** ** Task and Result *)

Record Result : Type := mkResult {
  TaskID : Z;
  Result_Payload : value;
  Output : value;
  Duration : Z
}.

(** A handler is called at a reading of the monotonic clock; when it
    returns it gives its output, its error and the reading at its return.
    The sinks are references to channels, [None] is the nil channel. *)
Record Task : Type := mkTask {
  ID : Z;
  Payload : value;
  Handler : value -> Z -> outcome (value * error * Z);
  Task_Result : option loc;
  Task_Error : option loc
}.

(** ** WorkerPool *)

(** The execution units that [Start] spawns with [go]. *)
Inductive goroutine : Type :=
  | worker (id : Z)
  | dispatcher.

(** The struct [WorkerPool].  [ctx_done] tells whether the channel
    [ctx.Done()] is closed, [cancel] closes it.  [wg] is the counter of
    the wait group.  [units] is not a field of the struct: it lists the
    goroutines of this pool that were spawned and have not returned. *)
Record WorkerPool : Type := mkWorkerPool {
  workerCount : Z;
  taskQueue : chan Task;
  workerPool : chan Z;
  ctx_done : bool;
  wg : Z;
  started : bool;
  mu : RWMutex;
  metrics : loc;
  units : list goroutine
}.

Definition with_taskQueue (q : chan Task) (wp : WorkerPool) : WorkerPool :=
  mkWorkerPool (workerCount wp) q (workerPool wp) (ctx_done wp) (wg wp)
               (started wp) (mu wp) (metrics wp) (units wp).

Definition with_ctx_done (b : bool) (wp : WorkerPool) : WorkerPool :=
  mkWorkerPool (workerCount wp) (taskQueue wp) (workerPool wp) b (wg wp)
               (started wp) (mu wp) (metrics wp) (units wp).

Definition with_started (b : bool) (wp : WorkerPool) : WorkerPool :=
  mkWorkerPool (workerCount wp) (taskQueue wp) (workerPool wp) (ctx_done wp)
               (wg wp) b (mu wp) (metrics wp) (units wp).

Definition with_mu (m : RWMutex) (wp : WorkerPool) : WorkerPool :=
  mkWorkerPool (workerCount wp) (taskQueue wp) (workerPool wp) (ctx_done wp)
               (wg wp) (started wp) m (metrics wp) (units wp).

(** [wp.wg.Add(1); go g]. *)
Definition spawn (g : goroutine) (wp : WorkerPool) : WorkerPool :=
  mkWorkerPool (workerCount wp) (taskQueue wp) (workerPool wp) (ctx_done wp)
               (wg wp + 1) (started wp) (mu wp) (metrics wp)
               (units wp ++ [g]).

Global Instance goroutine_eq_dec : EqDecision goroutine.
Proof. solve_decision. Defined.

(** [g] is taken out of the list of live units. *)
Fixpoint remove_unit (g : goroutine) (gs : list goroutine) : list goroutine :=
  match gs with
  | [] => []
  | g' :: gs' => if decide (g = g') then gs' else g' :: remove_unit g gs'
  end.

(** The unit [g] returns and its deferred [wp.wg.Done()] runs. *)
Definition unit_return (g : goroutine) (wp : WorkerPool) : WorkerPool :=
  mkWorkerPool (workerCount wp) (taskQueue wp) (workerPool wp) (ctx_done wp)
               (wg wp - 1) (started wp) (mu wp) (metrics wp)
               (remove_unit g (units wp)).

(** [NewWorkerPool]: the pool and the heap with the fresh [&Metrics{}]. *)
Definition NewWorkerPool (workerCount queueSize : Z) (h : gmap loc Metrics)
  : WorkerPool * gmap loc Metrics :=
  let workerCount := if workerCount <=? 0 then 1 else workerCount in
  let queueSize := if queueSize <? 0 then 0 else queueSize in
  let m := fresh (dom h) in
  (mkWorkerPool workerCount (make_chan queueSize) (make_chan workerCount)
                false 0 false unlocked m [],
   <[m := Metrics_zero]> h).

Definition GetWorkerCount (wp : WorkerPool) : Z := workerCount wp.

(** [IsRunning] reads [started] under the read lock. *)
Definition IsRunning (wp : WorkerPool) : outcome (bool * WorkerPool) :=
  mu1 ← RLock (mu wp);
  let r := started wp in
  mu2 ← RUnlock mu1;
  mret (r, with_mu mu2 wp).

(** The loop [for i := 0; i < wp.workerCount; i++] of [Start], with [n]
    iterations left. *)
Fixpoint spawn_workers (n : nat) (i : Z) (wp : WorkerPool) : WorkerPool :=
  match n with
  | O => wp
  | S n' => spawn_workers n' (i + 1) (spawn (worker i) wp)
  end.

Definition Start (wp : WorkerPool) : outcome WorkerPool :=
  mu1 ← Lock (mu wp);
  let wp := with_mu mu1 wp in
  wp ← (if started wp then mret wp
        else
          let wp := spawn_workers (Z.to_nat (workerCount wp)) 0 wp in
          let wp := spawn dispatcher wp in
          mret (with_started true wp));
  mu2 ← Unlock (mu wp);
  mret (with_mu mu2 wp).

(** [wp.cancel()]. *)
Definition cancel (wp : WorkerPool) : WorkerPool := with_ctx_done true wp.

(** A worker returns when it finds [wp.ctx.Done()] closed; so does the
    dispatcher, which also returns when it finds the queue closed and
    drained. *)
Definition can_return (g : goroutine) (wp : WorkerPool) : bool :=
  match g with
  | worker _ => ctx_done wp
  | dispatcher =>
      ctx_done wp
      || (closed (taskQueue wp) && (qcount (taskQueue wp) =? 0))
  end.

(** The units [gs] return one after the other. *)
Fixpoint units_exit (gs : list goroutine) (wp : WorkerPool) : WorkerPool :=
  match gs with
  | [] => wp
  | g :: gs' => units_exit gs' (unit_return g wp)
  end.

(** [wp.wg.Wait()] returns when the counter is zero.  [Stop] calls it
    after [wp.cancel()], with every unit of the pool in a [select] that
    has the case [<-wp.ctx.Done()]: the units return, and then the call
    does. *)
Definition wg_Wait (wp : WorkerPool) : outcome WorkerPool :=
  let wp := if ctx_done wp then units_exit (units wp) wp else wp in
  if wg wp =? 0 then Returns wp else Blocks.

Definition Stop (wp : WorkerPool) : outcome WorkerPool :=
  mu1 ← Lock (mu wp);
  let wp := with_mu mu1 wp in
  wp ← (if negb (started wp) then mret wp
        else
          q ← closechan (taskQueue wp);
          let wp := with_taskQueue q wp in
          let wp := cancel wp in
          wp ← wg_Wait wp;
          mret (with_started false wp));
  mu2 ← Unlock (mu wp);
  mret (with_mu mu2 wp).

(** The cases of the [select] in [Submit]. *)
Inductive select_case : Type :=
  | case_send       (* case wp.taskQueue <- task *)
  | case_done       (* case <-wp.ctx.Done() *)
  | case_default.   (* default *)

(** The cases that can proceed, in the order of the source. *)
Definition ready_cases (wp : WorkerPool) : list select_case :=
  (if send_ready (taskQueue wp) then [case_send] else [])
  ++ (if ctx_done wp then [case_done] else []).

(** Go's [select]: when no case can proceed the default case runs,
    otherwise one of those that can is chosen at random; [pick] is that
    choice. *)
Definition selectgo (pick : nat) (ready : list select_case) : select_case :=
  match ready with
  | [] => case_default
  | _ => nth (pick mod length ready)%nat ready case_default
  end.

(** The [select] statement of [Submit]. *)
Definition Submit_select (pick : nat) (task : Task) (wp : WorkerPool)
  : outcome (error * WorkerPool) :=
  match selectgo pick (ready_cases wp) with
  | case_send =>
      q ← chansend (taskQueue wp) task;
      mret (None, with_taskQueue q wp)
  | case_done => mret (Some ErrPoolStopped, wp)
  | case_default => mret (Some ErrQueueFull, wp)
  end.

Definition Submit (pick : nat) (task : Task) (wp : WorkerPool)
  : outcome (error * WorkerPool) :=
  mu1 ← RLock (mu wp);
  let wp := with_mu mu1 wp in
  '(err, wp) ← (if negb (started wp) then mret (Some ErrPoolNotStarted, wp)
                else Submit_select pick task wp);
  mu2 ← RUnlock (mu wp);
  mret (err, with_mu mu2 wp).

(** ** Metrics of the pool *)

(** The body of [updateMetrics], run while [wp.metrics.mu] is held. *)
Definition updateMetrics_locked (err : error) (duration : Z) (m : Metrics)
  : Metrics :=
  let processed := Int64.add (TasksProcessed m) 1 in
  let total := Int64.add (TotalDuration m) duration in
  let average :=
    if 0 <? processed then Int64.quo total processed
    else AverageDuration m in
  let failed :=
    match err with
    | Some _ => Int64.add (TasksFailed m) 1
    | None => TasksFailed m
    end in
  mkMetrics processed failed total average (metrics_mu m).

Definition updateMetrics (err : error) (duration : Z) (wp : WorkerPool)
    (h : gmap loc Metrics) : outcome (gmap loc Metrics) :=
  match h !! metrics wp with
  | None => Panics "invalid memory address or nil pointer dereference"
  | Some m =>
      mu1 ← Lock (metrics_mu m);
      let m := updateMetrics_locked err duration (with_metrics_mu mu1 m) in
      mu2 ← Unlock (metrics_mu m);
      mret (<[metrics wp := with_metrics_mu mu2 m]> h)
  end.

(** [GetMetrics] builds a new [Metrics] value from the four counters; its
    mutex is the zero value. *)
Definition GetMetrics (wp : WorkerPool) (h : gmap loc Metrics)
  : outcome (Metrics * gmap loc Metrics) :=
  match h !! metrics wp with
  | None => Panics "invalid memory address or nil pointer dereference"
  | Some m =>
      mu1 ← RLock (metrics_mu m);
      let m := with_metrics_mu mu1 m in
      let r := mkMetrics (TasksProcessed m) (TasksFailed m)
                         (TotalDuration m) (AverageDuration m) unlocked in
      mu2 ← RUnlock (metrics_mu m);
      mret (r, <[metrics wp := with_metrics_mu mu2 m]> h)
  end.

(** A sequence of calls of [updateMetrics], the oldest first. *)
Fixpoint updateMetrics_all (us : list (error * Z)) (wp : WorkerPool)
    (h : gmap loc Metrics) : outcome (gmap loc Metrics) :=
  match us with
  | [] => mret h
  | (err, duration) :: us' =>
      h ← updateMetrics err duration wp h;
      updateMetrics_all us' wp h
  end.

(** The number of updates whose error is not nil. *)
Fixpoint failures (us : list (error * Z)) : Z :=
  match us with
  | [] => 0
  | (err, _) :: us' =>
      match err with Some _ => 1 | None => 0 end + failures us'
  end.

(** A caller submits tasks one after the other; each comes with the
    choice of its [select]. *)
Fixpoint Submit_all (ts : list (nat * Task)) (wp : WorkerPool)
  : outcome (list error * WorkerPool) :=
  match ts with
  | [] => mret ([], wp)
  | (pick, task) :: ts' =>
      '(err, wp) ← Submit pick task wp;
      '(errs, wp) ← Submit_all ts' wp;
      mret (err :: errs, wp)
  end.

(** ** The world of a worker

    What [processTask] reads and writes besides the pool: the monotonic
    clock (nanoseconds), the heap of [Metrics] objects and the channels
    that tasks name as their sinks. *)

Record World : Type := mkWorld {
  clock : Z;
  heap : gmap loc Metrics;
  result_chans : gmap loc (chan Result);
  error_chans : gmap loc (chan error)
}.

Definition with_clock (t : Z) (w : World) : World :=
  mkWorld t (heap w) (result_chans w) (error_chans w).

Definition with_heap (h : gmap loc Metrics) (w : World) : World :=
  mkWorld (clock w) h (result_chans w) (error_chans w).

Definition with_result_chans (cs : gmap loc (chan Result)) (w : World)
  : World :=
  mkWorld (clock w) (heap w) cs (error_chans w).

Definition with_error_chans (cs : gmap loc (chan error)) (w : World)
  : World :=
  mkWorld (clock w) (heap w) (result_chans w) cs.

(** [time.Now()] and [time.Since(t)] on the monotonic clock. *)
Definition time_Now (w : World) : Z := clock w.
Definition time_Since (t : Z) (w : World) : Z := clock w - t.

(** The statement [c <- x] outside a [select]: the channel after it and
    how the statement ends.  A sender that cannot proceed stays parked
    with its element in [sendq]. *)
Definition send_stmt {A : Type} (c : chan A) (x : A)
  : chan A * outcome unit :=
  match chansend c x with
  | Returns c' => (c', Returns tt)
  | Blocks => (chansend_park c x, Blocks)
  | Panics msg => (c, Panics msg)
  end.

(** [task.Error <- err] and [task.Result <- r] for sinks that are not nil.
    The stores hold every channel that was made: a reference outside them
    does not occur in a Go program, and the model panics there. *)
Definition send_Error (c : loc) (err : error) (w : World)
  : World * outcome unit :=
  match error_chans w !! c with
  | None => (w, Panics "no such channel")
  | Some ch =>
      let '(ch', o) := send_stmt ch err in
      (with_error_chans (<[c := ch']> (error_chans w)) w, o)
  end.

Definition send_Result (c : loc) (r : Result) (w : World)
  : World * outcome unit :=
  match result_chans w !! c with
  | None => (w, Panics "no such channel")
  | Some ch =>
      let '(ch', o) := send_stmt ch r in
      (with_result_chans (<[c := ch']> (result_chans w)) w, o)
  end.

(** [processTask]: the world when the call ends and how it ends. *)
Definition processTask (wp : WorkerPool) (task : Task) (workerID : Z)
    (w : World) : World * outcome unit :=
  let startTime := time_Now w in
  match Handler task (Payload task) (clock w) with
  | Blocks => (w, Blocks)
  | Panics msg => (w, Panics msg)
  | Returns (result, err, now) =>
      let w := with_clock now w in
      let duration := time_Since startTime w in
      match updateMetrics err duration wp (heap w) with
      | Blocks => (w, Blocks)
      | Panics msg => (w, Panics msg)
      | Returns h =>
          let w := with_heap h w in
          match err with
          | Some _ =>
              match Task_Error task with
              | Some c => send_Error c err w
              | None => (w, Returns tt)
              end
          | None =>
              match Task_Result task with
              | Some c =>
                  send_Result c (mkResult (ID task) (Payload task) result
                                          duration) w
              | None => (w, Returns tt)
              end
          end
      end
  end.

(** ** Submit and Stop as concurrent calls

    One goroutine calls [Submit] and another calls [Stop] on the same
    pool, while the units of the pool run.  Each call advances by the
    atomic actions of the source: an operation of the mutex, a read or a
    write of [started], a channel operation, the cancellation. *)

Inductive submit_pc : Type :=
  | SubmitCall                    (* before wp.mu.RLock() *)
  | SubmitCheck                   (* before if !wp.started *)
  | SubmitSelect                  (* before the select *)
  | SubmitDeferred (err : error)  (* before the deferred wp.mu.RUnlock() *)
  | SubmitReturned (err : error)
  | SubmitPanicked.

Inductive stop_pc : Type :=
  | StopCall        (* before wp.mu.Lock() *)
  | StopCheck       (* before if !wp.started *)
  | StopClose       (* before close(wp.taskQueue) *)
  | StopCancel      (* before wp.cancel() *)
  | StopWait        (* before wp.wg.Wait() returns *)
  | StopClear       (* before wp.started = false *)
  | StopDeferred    (* before the deferred wp.mu.Unlock() *)
  | StopReturned
  | StopPanicked.

(** One action of the call [Submit(task)]; [None] when it is parked.
    [pick] is the choice of the [select]. *)
Definition submit_step (pick : nat) (task : Task) (pc : submit_pc)
    (wp : WorkerPool) : option (submit_pc * WorkerPool) :=
  match pc with
  | SubmitCall =>
      match RLock (mu wp) with
      | Returns mu1 => Some (SubmitCheck, with_mu mu1 wp)
      | _ => None
      end
  | SubmitCheck =>
      if negb (started wp)
      then Some (SubmitDeferred (Some ErrPoolNotStarted), wp)
      else Some (SubmitSelect, wp)
  | SubmitSelect =>
      match Submit_select pick task wp with
      | Returns (err, wp') => Some (SubmitDeferred err, wp')
      | Blocks => None
      | Panics _ => Some (SubmitPanicked, wp)
      end
  | SubmitDeferred err =>
      match RUnlock (mu wp) with
      | Returns mu2 => Some (SubmitReturned err, with_mu mu2 wp)
      | Blocks => None
      | Panics _ => Some (SubmitPanicked, wp)
      end
  | SubmitReturned _ => None
  | SubmitPanicked => None
  end.

(** One action of the call [Stop()]; [None] when it is parked. *)
Definition stop_step (pc : stop_pc) (wp : WorkerPool)
  : option (stop_pc * WorkerPool) :=
  match pc with
  | StopCall =>
      match Lock (mu wp) with
      | Returns mu1 => Some (StopCheck, with_mu mu1 wp)
      | _ => None
      end
  | StopCheck =>
      if negb (started wp) then Some (StopDeferred, wp)
      else Some (StopClose, wp)
  | StopClose =>
      match closechan (taskQueue wp) with
      | Returns q => Some (StopCancel, with_taskQueue q wp)
      | Blocks => None
      | Panics _ => Some (StopPanicked, wp)
      end
  | StopCancel => Some (StopWait, cancel wp)
  | StopWait => if wg wp =? 0 then Some (StopClear, wp) else None
  | StopClear => Some (StopDeferred, with_started false wp)
  | StopDeferred =>
      match Unlock (mu wp) with
      | Returns mu2 => Some (StopReturned, with_mu mu2 wp)
      | Blocks => None
      | Panics _ => Some (StopPanicked, wp)
      end
  | StopReturned => None
  | StopPanicked => None
  end.

(** The dispatcher receives the oldest task of the queue. *)
Definition dispatcher_recv (wp : WorkerPool) : option WorkerPool :=
  match buf (taskQueue wp) with
  | [] => None
  | _ :: rest =>
      let q := taskQueue wp in
      Some (with_taskQueue
              (mkChan (dataqsiz q) rest (closed q) (recvq q) (sendq q)
                      (handed q)) wp)
  end.

(** The dispatcher parks in the receive of its outer [select]: the queue
    is empty and open, the context is not cancelled. *)
Definition dispatcher_park (wp : WorkerPool) : option WorkerPool :=
  match buf (taskQueue wp) with
  | [] =>
      if closed (taskQueue wp) || ctx_done wp
         || negb (Nat.eqb (recvq (taskQueue wp)) 0)
      then None
      else Some (with_taskQueue (chanrecv_park (taskQueue wp)) wp)
  | _ :: _ => None
  end.

Record config : Type := mkConfig {
  pool : WorkerPool;
  submit_at : submit_pc;
  stop_at : stop_pc
}.

(** One step of the system in which [Submit(task)] and [Stop()] run. *)
Inductive step (task : Task) : config -> config -> Prop :=
  | step_submit (pick : nat) (c : config) (pc' : submit_pc)
      (wp' : WorkerPool) :
      submit_step pick task (submit_at c) (pool c) = Some (pc', wp') ->
      step task c (mkConfig wp' pc' (stop_at c))
  | step_stop (c : config) (pc' : stop_pc) (wp' : WorkerPool) :
      stop_step (stop_at c) (pool c) = Some (pc', wp') ->
      step task c (mkConfig wp' (submit_at c) pc')
  | step_unit_return (g : goroutine) (c : config) :
      g ∈ units (pool c) ->
      can_return g (pool c) = true ->
      step task c (mkConfig (unit_return g (pool c)) (submit_at c)
                            (stop_at c))
  | step_dispatcher_recv (c : config) (wp' : WorkerPool) :
      dispatcher ∈ units (pool c) ->
      dispatcher_recv (pool c) = Some wp' ->
      step task c (mkConfig wp' (submit_at c) (stop_at c))
  | step_dispatcher_park (c : config) (wp' : WorkerPool) :
      dispatcher ∈ units (pool c) ->
      dispatcher_park (pool c) = Some wp' ->
      step task c (mkConfig wp' (submit_at c) (stop_at c)).

(** Both calls are about to start on the pool [wp]. *)
Definition initial (wp : WorkerPool) : config :=
  mkConfig wp SubmitCall StopCall.

(** The statement [c <- x] has put [x] on the open channel [c], giving [c']:
    [x] went to a receiver that was parked, or into the buffer, or it stays
    with the sender, which is parked until a receiver takes it. *)
Definition sent_on {A : Type} (x : A) (c c' : chan A) (o : outcome unit)
  : Prop :=
  (handed c' = handed c ++ [x] /\ buf c' = buf c /\ sendq c' = sendq c
   /\ o = Returns tt)
  \/ (buf c' = buf c ++ [x] /\ handed c' = handed c /\ sendq c' = sendq c
      /\ o = Returns tt)
  \/ (sendq c' = sendq c ++ [x] /\ buf c' = buf c /\ handed c' = handed c
      /\ o = Blocks).

(** The pools on which no [Start] is in effect: a pool as [NewWorkerPool]
    returned it, or a pool on which a call of [Stop] has returned. *)
Definition not_started (wp : WorkerPool) : Prop :=
  (exists (workerCount queueSize : Z) (h : gmap loc Metrics),
      wp = (NewWorkerPool workerCount queueSize h).1)
  \/ (exists wp0 : WorkerPool, Stop wp0 = Returns wp).

(** ** GetMetrics while workers update the metrics

    The workers call [updateMetrics] and another goroutine calls
    [GetMetrics], all on the [Metrics] object of one pool.  A worker that
    waits for the lock does nothing to the object, so the workers appear as
    the one update that holds the lock, if any.  Each call advances by the
    atomic actions of the source: an operation of the mutex, the write of
    one field, the read of one field. *)

Inductive update_pc : Type :=
  | UpdateProcessed   (* before wp.metrics.TasksProcessed++ *)
  | UpdateTotal       (* before wp.metrics.TotalDuration += duration *)
  | UpdateAverage     (* before if wp.metrics.TasksProcessed > 0 *)
  | UpdateFailed      (* before if err != nil *)
  | UpdateDeferred.   (* before the deferred wp.metrics.mu.Unlock() *)

Inductive get_pc : Type :=
  | GetCall                       (* before wp.metrics.mu.RLock() *)
  | GetProcessed                  (* before the read of TasksProcessed *)
  | GetFailed (p : Z)             (* before the read of TasksFailed *)
  | GetTotal (p f : Z)            (* before the read of TotalDuration *)
  | GetAverage (p f t : Z)        (* before the read of AverageDuration *)
  | GetDeferred (s : Metrics)     (* before the deferred RUnlock() *)
  | GetReturned (s : Metrics).

(** The write that [updateMetrics(err, duration)] does at a position. *)
Definition update_field (err : error) (duration : Z) (pc : update_pc)
    (m : Metrics) : Metrics :=
  match pc with
  | UpdateProcessed =>
      mkMetrics (Int64.add (TasksProcessed m) 1) (TasksFailed m)
                (TotalDuration m) (AverageDuration m) (metrics_mu m)
  | UpdateTotal =>
      mkMetrics (TasksProcessed m) (TasksFailed m)
                (Int64.add (TotalDuration m) duration)
                (AverageDuration m) (metrics_mu m)
  | UpdateAverage =>
      if 0 <? TasksProcessed m
      then mkMetrics (TasksProcessed m) (TasksFailed m) (TotalDuration m)
                     (Int64.quo (TotalDuration m) (TasksProcessed m))
                     (metrics_mu m)
      else m
  | UpdateFailed =>
      match err with
      | Some _ =>
          mkMetrics (TasksProcessed m) (Int64.add (TasksFailed m) 1)
                    (TotalDuration m) (AverageDuration m) (metrics_mu m)
      | None => m
      end
  | UpdateDeferred => m
  end.

Definition update_next (pc : update_pc) : update_pc :=
  match pc with
  | UpdateProcessed => UpdateTotal
  | UpdateTotal => UpdateAverage
  | UpdateAverage => UpdateFailed
  | UpdateFailed => UpdateDeferred
  | UpdateDeferred => UpdateDeferred
  end.

(** One action of [updateMetrics(err, duration)] that holds the lock: the
    next position ([None] when the call returns) and the object. *)
Definition update_step (err : error) (duration : Z) (pc : update_pc)
    (m : Metrics) : option (option update_pc * Metrics) :=
  match pc with
  | UpdateDeferred =>
      match Unlock (metrics_mu m) with
      | Returns mu2 => Some (None, with_metrics_mu mu2 m)
      | _ => None
      end
  | _ => Some (Some (update_next pc), update_field err duration pc m)
  end.

(** One action of [GetMetrics()]; [None] when it is parked or has
    returned. *)
Definition get_step (pc : get_pc) (m : Metrics) : option (get_pc * Metrics) :=
  match pc with
  | GetCall =>
      match RLock (metrics_mu m) with
      | Returns mu1 => Some (GetProcessed, with_metrics_mu mu1 m)
      | _ => None
      end
  | GetProcessed => Some (GetFailed (TasksProcessed m), m)
  | GetFailed p => Some (GetTotal p (TasksFailed m), m)
  | GetTotal p f => Some (GetAverage p f (TotalDuration m), m)
  | GetAverage p f t =>
      Some (GetDeferred (mkMetrics p f t (AverageDuration m) unlocked), m)
  | GetDeferred s =>
      match RUnlock (metrics_mu m) with
      | Returns mu2 => Some (GetReturned s, with_metrics_mu mu2 m)
      | _ => None
      end
  | GetReturned _ => None
  end.

(** The object, the update that holds the lock, the position of
    [GetMetrics], and the updates that have returned, the oldest first. *)
Record metrics_config : Type := mkMetricsConfig {
  object : Metrics;
  updating : option (error * Z * update_pc);
  get_at : get_pc;
  updated : list (error * Z)
}.

Inductive metrics_step : metrics_config -> metrics_config -> Prop :=
  | step_update_begin (err : error) (duration : Z) (c : metrics_config)
      (mu1 : RWMutex) :
      updating c = None ->
      Lock (metrics_mu (object c)) = Returns mu1 ->
      metrics_step c
        (mkMetricsConfig (with_metrics_mu mu1 (object c))
                         (Some (err, duration, UpdateProcessed))
                         (get_at c) (updated c))
  | step_update (err : error) (duration : Z) (pc pc' : update_pc)
      (c : metrics_config) (m' : Metrics) :
      updating c = Some (err, duration, pc) ->
      update_step err duration pc (object c) = Some (Some pc', m') ->
      metrics_step c
        (mkMetricsConfig m' (Some (err, duration, pc')) (get_at c)
                         (updated c))
  | step_update_end (err : error) (duration : Z) (pc : update_pc)
      (c : metrics_config) (m' : Metrics) :
      updating c = Some (err, duration, pc) ->
      update_step err duration pc (object c) = Some (None, m') ->
      metrics_step c
        (mkMetricsConfig m' None (get_at c)
                         (updated c ++ [(err, duration)]))
  | step_get (c : metrics_config) (pc' : get_pc) (m' : Metrics) :
      get_step (get_at c) (object c) = Some (pc', m') ->
      metrics_step c (mkMetricsConfig m' (updating c) pc' (updated c)).

(** The counters after the updates [us], from the counters [m]. *)
Definition apply_updates (us : list (error * Z)) (m : Metrics) : Metrics :=
  foldl (fun m u => updateMetrics_locked u.1 u.2 m) m us.

(** The value that [GetMetrics] builds from the counters of [m]. *)
Definition snapshot (m : Metrics) : Metrics :=
  mkMetrics (TasksProcessed m) (TasksFailed m) (TotalDuration m)
            (AverageDuration m) unlocked.

(** The counters while an update is at [pc], from the counters [m] that
    it found. *)
Definition update_reached (err : error) (duration : Z) (pc : update_pc)
    (m : Metrics) : Metrics :=
  let m1 := update_field err duration UpdateProcessed m in
  let m2 := update_field err duration UpdateTotal m1 in
  let m3 := update_field err duration UpdateAverage m2 in
  let m4 := update_field err duration UpdateFailed m3 in
  match pc with
  | UpdateProcessed => m
  | UpdateTotal => m1
  | UpdateAverage => m2
  | UpdateFailed => m3
  | UpdateDeferred => m4
  end.

Definition get_holds (pc : get_pc) : nat :=
  match pc with
  | GetCall | GetReturned _ => 0
  | _ => 1
  end.

(** What [GetMetrics] has read so far comes from the counters [m]. *)
Definition get_read (pc : get_pc) (m : Metrics) : Prop :=
  match pc with
  | GetCall | GetProcessed | GetReturned _ => True
  | GetFailed p => p = TasksProcessed m
  | GetTotal p f => p = TasksProcessed m /\ f = TasksFailed m
  | GetAverage p f t =>
      p = TasksProcessed m /\ f = TasksFailed m /\ t = TotalDuration m
  | GetDeferred s => s = snapshot m
  end.

(** The value that [GetMetrics] returned holds the counters as they were
    after some of the updates that have returned. *)
Definition get_result (m0 : Metrics) (pc : get_pc) (us : list (error * Z))
  : Prop :=
  match pc with
  | GetReturned s =>
      exists us1 us2 : list (error * Z),
        us = us1 ++ us2 /\ s = snapshot (apply_updates us1 m0)
  | _ => True
  end.

Definition metrics_safe (m0 : Metrics) (c : metrics_config) : Prop :=
  match updating c with
  | None =>
      writer (metrics_mu (object c)) = false
      /\ snapshot (object c) = snapshot (apply_updates (updated c) m0)
  | Some (err, duration, pc) =>
      writer (metrics_mu (object c)) = true
      /\ get_holds (get_at c) = 0%nat
      /\ snapshot (object c)
         = snapshot (update_reached err duration pc
                                    (apply_updates (updated c) m0))
  end
  /\ readers (metrics_mu (object c)) = get_holds (get_at c)
  /\ get_read (get_at c) (apply_updates (updated c) m0)
  /\ get_result m0 (get_at c) (updated c).

(** A schedule names, step by step, who moves: the call of [Submit] (with
    the choice of its [select]), the call of [Stop], a unit of the pool
    that returns, or the dispatcher that receives or parks. *)
Inductive move : Type :=
  | move_submit (pick : nat)
  | move_stop
  | move_unit_return (g : goroutine)
  | move_dispatcher_recv
  | move_dispatcher_park.

Definition exec (task : Task) (mv : move) (c : config) : option config :=
  match mv with
  | move_submit pick =>
      '(pc', wp') ← submit_step pick task (submit_at c) (pool c);
      Some (mkConfig wp' pc' (stop_at c))
  | move_stop =>
      '(pc', wp') ← stop_step (stop_at c) (pool c);
      Some (mkConfig wp' (submit_at c) pc')
  | move_unit_return g =>
      if decide (g ∈ units (pool c)) then
        if can_return g (pool c)
        then Some (mkConfig (unit_return g (pool c)) (submit_at c) (stop_at c))
        else None
      else None
  | move_dispatcher_recv =>
      if decide (dispatcher ∈ units (pool c)) then
        wp' ← dispatcher_recv (pool c);
        Some (mkConfig wp' (submit_at c) (stop_at c))
      else None
  | move_dispatcher_park =>
      if decide (dispatcher ∈ units (pool c)) then
        wp' ← dispatcher_park (pool c);
        Some (mkConfig wp' (submit_at c) (stop_at c))
      else None
  end.

Fixpoint run (task : Task) (schedule : list move) (c : config)
  : option config :=
  match schedule with
  | [] => Some c
  | mv :: schedule' => c' ← exec task mv c; run task schedule' c'
  end.

(** What the position of each call says about the pool, in a system that
    started with a running pool: whether [Stop] holds the write lock, and
    what it has done to [started] and to the context; whether [Submit]
    holds a read lock, and what it has found. *)
Definition stop_holds (pc : stop_pc) : bool :=
  match pc with
  | StopCall | StopReturned => false
  | _ => true
  end.

Definition stop_started (pc : stop_pc) : bool :=
  match pc with
  | StopDeferred | StopReturned => false
  | _ => true
  end.

Definition stop_cancelled (pc : stop_pc) : bool :=
  match pc with
  | StopWait | StopClear | StopDeferred | StopReturned => true
  | _ => false
  end.

Definition submit_holds (pc : submit_pc) : nat :=
  match pc with
  | SubmitCall | SubmitReturned _ => 0
  | _ => 1
  end.

(** The errors that [Submit] returns besides [ErrPoolStopped]. *)
Definition not_stopped_error (err : error) : Prop :=
  err = None \/ err = Some ErrQueueFull \/ err = Some ErrPoolNotStarted.

Definition submit_found (pc : submit_pc) (wp : WorkerPool) : Prop :=
  match pc with
  | SubmitSelect => started wp = true
  | SubmitDeferred err | SubmitReturned err => not_stopped_error err
  | _ => True
  end.

Definition safe (c : config) : Prop :=
  writer (mu (pool c)) = stop_holds (stop_at c)
  /\ started (pool c) = stop_started (stop_at c)
  /\ ctx_done (pool c) = stop_cancelled (stop_at c)
  /\ readers (mu (pool c)) = submit_holds (submit_at c)
  /\ (stop_holds (stop_at c) = true -> submit_holds (submit_at c) = 0%nat)
  /\ submit_found (submit_at c) (pool c).

(** * Properties *)

(** ** Arithmetic of [int64] *)

Lemma wrap_in_range (z : Z) : Int64.in_range z -> Int64.wrap z = z.
Proof.
  unfold Int64.in_range, Int64.min_int, Int64.max_int, Int64.wrap.
  intros Hz. rewrite Z.mod_small by lia. lia.
Qed.

Lemma add_in_range (x y : Z) :
  Int64.in_range (x + y) -> Int64.add x y = x + y.
Proof. apply wrap_in_range. Qed.

Lemma quot_in_range (x y : Z) :
  Int64.in_range x -> 0 < y -> Int64.in_range (x ÷ y).
Proof.
  unfold Int64.in_range, Int64.min_int, Int64.max_int. intros Hx Hy.
  destruct (Z.le_gt_cases 0 x) as [Hpos | Hneg].
  - pose proof (Z.quot_pos x y Hpos Hy).
    pose proof (Z.quot_le_upper_bound x y x Hy) as Hub.
    assert (x ÷ y <= x) by (apply Hub; nia). lia.
  - assert (Hopp : 0 <= - x) by lia.
    pose proof (Z.quot_pos (- x) y Hopp Hy) as Hq.
    pose proof (Z.quot_le_upper_bound (- x) y (- x) Hy) as Hub.
    assert (- x ÷ y <= - x) by (apply Hub; nia).
    rewrite Z.quot_opp_l in * by lia. lia.
Qed.

Lemma quo_in_range (x y : Z) :
  Int64.in_range x -> 0 < y -> Int64.quo x y = x ÷ y.
Proof.
  intros Hx Hy. unfold Int64.quo. apply wrap_in_range.
  by apply quot_in_range.
Qed.

(** ** The mutex, taken and released by one call *)

Lemma Lock_unlocked : Lock unlocked = Returns (mkRWMutex true 0).
Proof. reflexivity. Qed.

Lemma RLock_unlocked : RLock unlocked = Returns (mkRWMutex false 1).
Proof. reflexivity. Qed.

Lemma with_mu_id (wp : WorkerPool) : with_mu (mu wp) wp = wp.
Proof. by destruct wp. Qed.

Lemma with_mu_with_mu (m1 m2 : RWMutex) (wp : WorkerPool) :
  with_mu m2 (with_mu m1 wp) = with_mu m2 wp.
Proof. reflexivity. Qed.

Lemma with_metrics_mu_id (m : Metrics) : with_metrics_mu (metrics_mu m) m = m.
Proof. by destruct m. Qed.

(** ** The constructor *)

Lemma NewWorkerPool_metrics (workerCount queueSize : Z) (h : gmap loc Metrics) :
  (NewWorkerPool workerCount queueSize h).2
    !! metrics (NewWorkerPool workerCount queueSize h).1 = Some Metrics_zero.
Proof. cbn. apply lookup_insert_eq. Qed.

Lemma NewWorkerPool_frame (workerCount queueSize : Z) (h : gmap loc Metrics)
    (l : loc) (m : Metrics) :
  h !! l = Some m ->
  (NewWorkerPool workerCount queueSize h).2 !! l = Some m.
Proof.
  intros Hl. cbn. rewrite lookup_insert_ne; [done |].
  intros Heq. pose proof (is_fresh (dom h)) as Hfresh.
  rewrite Heq in Hfresh. apply Hfresh, elem_of_dom. eauto.
Qed.

(** C1: for every [workerCount] and [queueCapacity], the pool that
    [NewWorkerPool] returns reports [workerCount] workers when
    [workerCount >= 1] and 1 worker otherwise, has a queue of capacity
    [queueCapacity] when [queueCapacity >= 0] and 0 otherwise, is not
    running, and its four metrics counters are zero. *)
Theorem NewWorkerPool_spec (workerCount queueCapacity : Z)
    (h : gmap loc Metrics) :
  let wp := (NewWorkerPool workerCount queueCapacity h).1 in
  let h' := (NewWorkerPool workerCount queueCapacity h).2 in
  GetWorkerCount wp = (if decide (1 <= workerCount) then workerCount else 1)
  /\ dataqsiz (taskQueue wp)
     = (if decide (0 <= queueCapacity) then queueCapacity else 0)
  /\ buf (taskQueue wp) = []
  /\ IsRunning wp = Returns (false, wp)
  /\ GetMetrics wp h' = Returns (mkMetrics 0 0 0 0 unlocked, h').
Proof.
  cbn. repeat split.
  - destruct (Z.leb_spec workerCount 0); case_decide; lia.
  - destruct (Z.ltb_spec queueCapacity 0); case_decide; lia.
  - unfold GetMetrics. cbn. rewrite lookup_insert_eq. cbn.
    by rewrite insert_insert_eq.
Qed.

(** ** Metrics *)

Lemma updateMetrics_unlocked (err : error) (duration : Z) (wp : WorkerPool)
    (h : gmap loc Metrics) (m : Metrics) :
  h !! metrics wp = Some m ->
  metrics_mu m = unlocked ->
  updateMetrics err duration wp h
  = Returns (<[metrics wp := updateMetrics_locked err duration m]> h).
Proof.
  intros Hm Hmu. unfold updateMetrics. rewrite Hm, Hmu. cbn.
  do 2 f_equal. destruct m as [p f t a mu0]. cbn in Hmu. by subst mu0.
Qed.

Lemma failures_cons (err : error) (duration : Z) (us : list (error * Z)) :
  failures ((err, duration) :: us)
  = match err with Some _ => 1 | None => 0 end + failures us.
Proof. reflexivity. Qed.

Lemma failures_bounds (us : list (error * Z)) :
  0 <= failures us <= Z.of_nat (length us).
Proof.
  induction us as [| [[e |] d] us IH]; cbn [failures length]; lia.
Qed.

(** The counters after a sequence of updates, from any state in which the
    counts do not overflow. *)
Lemma updateMetrics_all_counts (us : list (error * Z)) (wp : WorkerPool) :
  forall (h : gmap loc Metrics) (m : Metrics),
    h !! metrics wp = Some m ->
    metrics_mu m = unlocked ->
    0 <= TasksFailed m <= TasksProcessed m ->
    TasksProcessed m + Z.of_nat (length us) <= Int64.max_int ->
    exists (h' : gmap loc Metrics) (m' : Metrics),
      updateMetrics_all us wp h = Returns h'
      /\ h' !! metrics wp = Some m'
      /\ metrics_mu m' = unlocked
      /\ TasksProcessed m' = TasksProcessed m + Z.of_nat (length us)
      /\ TasksFailed m' = TasksFailed m + failures us
      /\ (forall l : loc, l <> metrics wp -> h' !! l = h !! l).
Proof.
  induction us as [| [err duration] us IH]; intros h m Hm Hmu Hf Hp.
  - exists h, m. cbn. repeat split; auto; lia.
  - cbn [updateMetrics_all]. rewrite (updateMetrics_unlocked _ _ _ _ m Hm Hmu).
    cbn [mbind outcome_bind].
    set (m1 := updateMetrics_locked err duration m).
    assert (Hp1 : TasksProcessed m1 = TasksProcessed m + 1).
    { cbn. apply add_in_range. cbn [length] in Hp.
      unfold Int64.in_range, Int64.min_int, Int64.max_int in *. lia. }
    assert (Hf1 : TasksFailed m1 = TasksFailed m + match err with Some _ => 1 | None => 0 end).
    { cbn. destruct err; [| lia]. apply add_in_range. cbn [length] in Hp.
      unfold Int64.in_range, Int64.min_int, Int64.max_int in *. lia. }
    destruct (IH (<[metrics wp := m1]> h) m1) as (h' & m' & Hrun & Hm' & Hmu' & Hp' & Hf' & Hfr).
    + apply lookup_insert_eq.
    + exact Hmu.
    + rewrite Hp1, Hf1. destruct err; lia.
    + rewrite Hp1. cbn [length] in Hp. lia.
    + exists h', m'. rewrite failures_cons. cbn [length].
      repeat split; auto; try lia.
      intros l Hl. rewrite Hfr by done. by rewrite lookup_insert_ne.
Qed.

(** C4: one call of [updateMetrics] adds 1 to [TasksProcessed], adds the
    duration to [TotalDuration], adds 1 to [TasksFailed] when the error is
    not nil and leaves it otherwise, and sets [AverageDuration] to the new
    total divided by the new count.  The state is any one whose counters
    do not overflow [int64] in this call. *)
Theorem updateMetrics_spec (err : error) (duration : Z) (wp : WorkerPool)
    (h : gmap loc Metrics) (m : Metrics) :
  h !! metrics wp = Some m ->
  metrics_mu m = unlocked ->
  0 <= TasksProcessed m < Int64.max_int ->
  Int64.in_range (TasksFailed m + 1) ->
  Int64.in_range (TotalDuration m + duration) ->
  exists m' : Metrics,
    updateMetrics err duration wp h = Returns (<[metrics wp := m']> h)
    /\ TasksProcessed m' = TasksProcessed m + 1
    /\ TotalDuration m' = TotalDuration m + duration
    /\ TasksFailed m' = TasksFailed m + match err with Some _ => 1 | None => 0 end
    /\ AverageDuration m' = TotalDuration m' ÷ TasksProcessed m'
    /\ metrics_mu m' = unlocked.
Proof.
  intros Hm Hmu Hp Hf Ht.
  exists (updateMetrics_locked err duration m).
  split; [by apply updateMetrics_unlocked |].
  assert (Hp1 : Int64.add (TasksProcessed m) 1 = TasksProcessed m + 1).
  { apply add_in_range.
    unfold Int64.in_range, Int64.min_int, Int64.max_int in *. lia. }
  assert (Ht1 : Int64.add (TotalDuration m) duration
                = TotalDuration m + duration) by by apply add_in_range.
  cbn. rewrite Hp1, Ht1. repeat split; auto.
  - destruct err; [by apply add_in_range | lia].
  - destruct (Z.ltb_spec 0 (TasksProcessed m + 1)); [| lia].
    apply quo_in_range; [done | lia].
Qed.

(** C10: from the zero metrics of a new pool, after every sequence of
    updates (shorter than the largest [int64]) the failed count lies
    between 0 and the processed count, it is the number of updates whose
    error is not nil, and the processed count is the number of updates. *)
Theorem metrics_invariant (workerCount queueSize : Z) (h : gmap loc Metrics)
    (us : list (error * Z)) :
  Z.of_nat (length us) <= Int64.max_int ->
  exists (h' : gmap loc Metrics) (m : Metrics),
    updateMetrics_all us (NewWorkerPool workerCount queueSize h).1
                      (NewWorkerPool workerCount queueSize h).2 = Returns h'
    /\ h' !! metrics (NewWorkerPool workerCount queueSize h).1 = Some m
    /\ 0 <= TasksFailed m <= TasksProcessed m
    /\ TasksFailed m = failures us
    /\ TasksProcessed m = Z.of_nat (length us).
Proof.
  intros Hlen.
  destruct (updateMetrics_all_counts us (NewWorkerPool workerCount queueSize h).1
              (NewWorkerPool workerCount queueSize h).2 Metrics_zero)
    as (h' & m & Hrun & Hm & _ & Hp & Hf & _).
  - apply NewWorkerPool_metrics.
  - reflexivity.
  - cbn. lia.
  - cbn [TasksProcessed Metrics_zero]. lia.
  - exists h', m. cbn [TasksProcessed TasksFailed Metrics_zero] in Hp, Hf.
    pose proof (failures_bounds us). repeat split; auto; lia.
Qed.

(** ** The life cycle *)

Lemma units_exit_fields (gs : list goroutine) (wp : WorkerPool) :
  mu (units_exit gs wp) = mu wp
  /\ started (units_exit gs wp) = started wp
  /\ ctx_done (units_exit gs wp) = ctx_done wp
  /\ taskQueue (units_exit gs wp) = taskQueue wp
  /\ workerCount (units_exit gs wp) = workerCount wp
  /\ metrics (units_exit gs wp) = metrics wp
  /\ wg (units_exit gs wp) = wg wp - Z.of_nat (length gs).
Proof.
  revert wp. induction gs as [| g gs IH]; intros wp; cbn [units_exit].
  - cbn. repeat split; lia.
  - destruct (IH (unit_return g wp)) as (-> & -> & -> & -> & -> & -> & ->).
    cbn. repeat split; lia.
Qed.

Lemma wg_Wait_fields (wp wp' : WorkerPool) :
  wg_Wait wp = Returns wp' ->
  mu wp' = mu wp /\ started wp' = started wp /\ ctx_done wp' = ctx_done wp
  /\ taskQueue wp' = taskQueue wp /\ wg wp' = 0.
Proof.
  unfold wg_Wait. destruct (ctx_done wp) eqn:Hd.
  - destruct (units_exit_fields (units wp) wp) as (Hmu & Hst & Hdone & Hq & _).
    destruct (Z.eqb_spec (wg (units_exit (units wp) wp)) 0); [| done].
    intros [= <-]. rewrite Hdone. done.
  - destruct (Z.eqb_spec (wg wp) 0); [| done].
    intros [= <-]. done.
Qed.

Lemma Stop_returns (wp0 wp : WorkerPool) :
  Stop wp0 = Returns wp -> mu wp = unlocked /\ started wp = false.
Proof.
  unfold Stop. destruct (mu wp0) as [[] [| n]]; cbn; try done.
  destruct (started wp0) eqn:Hst; cbn.
  - destruct (closechan (taskQueue wp0)) as [q' | |]; cbn; try done.
    destruct (wg_Wait _) as [wp1 | |] eqn:Hwait; cbn; try done.
    apply wg_Wait_fields in Hwait as (Hmu & _). cbn in Hmu.
    rewrite Hmu. cbn. by intros [= <-].
  - intros [= <-]. done.
Qed.

Lemma not_started_fields (wp : WorkerPool) :
  not_started wp -> mu wp = unlocked /\ started wp = false.
Proof.
  intros [(wc & qs & h & ->) | (wp0 & Hstop)]; [done |].
  by apply Stop_returns in Hstop.
Qed.

Lemma Submit_idle (pick : nat) (task : Task) (wp : WorkerPool) :
  mu wp = unlocked -> started wp = false ->
  Submit pick task wp = Returns (Some ErrPoolNotStarted, wp).
Proof.
  intros Hmu Hst. destruct wp. cbn in Hmu, Hst. by subst.
Qed.

Lemma Stop_idle (wp : WorkerPool) :
  mu wp = unlocked -> started wp = false -> Stop wp = Returns wp.
Proof.
  intros Hmu Hst. destruct wp. cbn in Hmu, Hst. by subst.
Qed.

Lemma IsRunning_unlocked (wp : WorkerPool) :
  mu wp = unlocked -> IsRunning wp = Returns (started wp, wp).
Proof.
  intros Hmu. destruct wp. cbn in Hmu. by subst.
Qed.

Lemma Start_running (wp : WorkerPool) :
  mu wp = unlocked -> started wp = true -> Start wp = Returns wp.
Proof.
  intros Hmu Hst. destruct wp. cbn in Hmu, Hst. by subst.
Qed.

Lemma spawn_workers_fields (n : nat) (i : Z) (wp : WorkerPool) :
  mu (spawn_workers n i wp) = mu wp
  /\ started (spawn_workers n i wp) = started wp
  /\ ctx_done (spawn_workers n i wp) = ctx_done wp
  /\ taskQueue (spawn_workers n i wp) = taskQueue wp
  /\ workerCount (spawn_workers n i wp) = workerCount wp
  /\ metrics (spawn_workers n i wp) = metrics wp
  /\ wg (spawn_workers n i wp) = wg wp + Z.of_nat n
  /\ length (units (spawn_workers n i wp)) = (length (units wp) + n)%nat.
Proof.
  revert i wp. induction n as [| n IH]; intros i wp; cbn [spawn_workers].
  - repeat split; lia.
  - destruct (IH (i + 1) (spawn (worker i) wp))
      as (-> & -> & -> & -> & -> & -> & -> & ->).
    cbn. rewrite length_app. cbn. repeat split; lia.
Qed.

(** What a call of [Start] that returns leaves behind. *)
Lemma Start_returns (wp wp1 : WorkerPool) :
  Start wp = Returns wp1 ->
  mu wp1 = unlocked /\ started wp1 = true
  /\ workerCount wp1 = workerCount wp /\ ctx_done wp1 = ctx_done wp
  /\ taskQueue wp1 = taskQueue wp /\ metrics wp1 = metrics wp.
Proof.
  unfold Start. destruct (mu wp) as [[] [| n]] eqn:Hmu; cbn; try done.
  destruct (started wp) eqn:Hst; cbn.
  - intros [= <-]. done.
  - destruct (spawn_workers_fields (Z.to_nat (workerCount wp)) 0
                (with_mu {| writer := true; readers := 0 |} wp))
      as (Hm & _ & Hd & Hq & Hwc & Hms & _).
    rewrite Hm. cbn. intros [= <-]. cbn. by rewrite Hd, Hq, Hwc, Hms.
Qed.

(** A first [Start] spawns one worker for each of the [workerCount] and the
    dispatcher. *)
Lemma Start_spawns (wp wp1 : WorkerPool) :
  started wp = false ->
  Start wp = Returns wp1 ->
  length (units wp1) = (length (units wp) + Z.to_nat (workerCount wp) + 1)%nat
  /\ wg wp1 = wg wp + Z.of_nat (Z.to_nat (workerCount wp)) + 1.
Proof.
  intros Hst. unfold Start.
  destruct (mu wp) as [[] [| n]] eqn:Hmu; cbn; try done.
  rewrite Hst. cbn.
  destruct (spawn_workers_fields (Z.to_nat (workerCount wp)) 0
              (with_mu {| writer := true; readers := 0 |} wp))
    as (Hm & _ & _ & _ & _ & _ & Hwg & Hlen).
  rewrite Hm. cbn. intros [= <-]. cbn.
  rewrite length_app, Hlen, Hwg. cbn. split; lia.
Qed.

(** C2: [Submit] on a pool that was never started, or on which [Stop] has
    returned, returns [ErrPoolNotStarted] and leaves the pool, and so its
    queue, as it was. *)
Theorem Submit_not_started (pick : nat) (task : Task) (wp : WorkerPool) :
  not_started wp ->
  Submit pick task wp = Returns (Some ErrPoolNotStarted, wp).
Proof.
  intros Hns. apply not_started_fields in Hns as [Hmu Hst].
  by apply Submit_idle.
Qed.

(** C6: [Start] on a pool on which [Start] has returned is a no-op: it
    returns the pool as the first [Start] left it, with the same worker
    count, the same live units and the same wait-group counter. *)
Theorem Start_idempotent (wp wp1 : WorkerPool) :
  Start wp = Returns wp1 ->
  exists wp2 : WorkerPool,
    Start wp1 = Returns wp2
    /\ wp2 = wp1
    /\ GetWorkerCount wp2 = GetWorkerCount wp1
    /\ GetWorkerCount wp1 = GetWorkerCount wp
    /\ units wp2 = units wp1
    /\ wg wp2 = wg wp1.
Proof.
  intros Hstart. apply Start_returns in Hstart as (Hmu & Hst & Hwc & _).
  exists wp1. repeat split; auto. by apply Start_running.
Qed.

(** C7: [Stop] on a pool that was never started, or on which [Stop] has
    returned, returns at once and leaves the pool as it was: nothing is
    closed or cancelled by the call, and [IsRunning] is false. *)
Theorem Stop_not_started (wp : WorkerPool) :
  not_started wp ->
  Stop wp = Returns wp
  /\ IsRunning wp = Returns (false, wp).
Proof.
  intros Hns. apply not_started_fields in Hns as [Hmu Hst].
  split; [by apply Stop_idle |].
  rewrite <- Hst. by apply IsRunning_unlocked.
Qed.

(** ** Submission to a running pool *)

Lemma selectgo_one (pick : nat) (c : select_case) : selectgo pick [c] = c.
Proof. unfold selectgo. cbn [length]. by rewrite Nat.mod_1_r. Qed.

(** [Submit] on a running pool that nobody is stopping and from whose queue
    nobody is receiving: the task is buffered when there is a free slot,
    and refused otherwise. *)
Lemma Submit_running (pick : nat) (task : Task) (wp : WorkerPool) :
  mu wp = unlocked -> started wp = true -> ctx_done wp = false ->
  closed (taskQueue wp) = false -> recvq (taskQueue wp) = 0%nat ->
  Submit pick task wp
  = if qcount (taskQueue wp) <? dataqsiz (taskQueue wp)
    then Returns (None,
                  with_taskQueue
                    (mkChan (dataqsiz (taskQueue wp))
                            (buf (taskQueue wp) ++ [task]) false 0
                            (sendq (taskQueue wp)) (handed (taskQueue wp)))
                    wp)
    else Returns (Some ErrQueueFull, wp).
Proof.
  intros Hmu Hst Hd Hcl Hrq.
  destruct wp as [wc q pl d g st m ms us]. cbn in Hmu, Hst, Hd, Hcl, Hrq.
  subst m st d. unfold Submit, Submit_select, ready_cases, send_ready.
  cbn -[selectgo]. rewrite Hcl, Hrq. cbn -[selectgo].
  destruct (qcount q <? dataqsiz q) eqn:Hfree; cbn -[selectgo].
  - rewrite selectgo_one. unfold chansend. rewrite Hcl, Hrq, Hfree. done.
  - done.
Qed.

Lemma Submit_all_app (ts1 ts2 : list (nat * Task)) (wp : WorkerPool) :
  Submit_all (ts1 ++ ts2) wp
  = '(errs1, wp1) ← Submit_all ts1 wp;
    '(errs2, wp2) ← Submit_all ts2 wp1;
    mret (errs1 ++ errs2, wp2).
Proof.
  revert wp. induction ts1 as [| [pick task] ts1 IH]; intros wp.
  - cbn. destruct (Submit_all ts2 wp) as [[errs2 wp2] | |]; done.
  - cbn [app Submit_all].
    destruct (Submit pick task wp) as [[err wp1] | |]; cbn; [| done | done].
    rewrite IH.
    destruct (Submit_all ts1 wp1) as [[errs1 wp2] | |]; cbn; [| done | done].
    destruct (Submit_all ts2 wp2) as [[errs2 wp3] | |]; done.
Qed.

(** As long as the queue has room, consecutive submissions succeed and the
    queue holds the tasks in the order of their submission. *)
Lemma Submit_all_room (ts : list (nat * Task)) :
  forall wp : WorkerPool,
    mu wp = unlocked -> started wp = true -> ctx_done wp = false ->
    closed (taskQueue wp) = false -> recvq (taskQueue wp) = 0%nat ->
    qcount (taskQueue wp) + Z.of_nat (length ts) <= dataqsiz (taskQueue wp) ->
    Submit_all ts wp
    = Returns (replicate (length ts) None,
               with_taskQueue
                 (mkChan (dataqsiz (taskQueue wp))
                         (buf (taskQueue wp) ++ ts.*2) false 0
                         (sendq (taskQueue wp)) (handed (taskQueue wp)))
                 wp).
Proof.
  induction ts as [| [pick task] ts IH]; intros wp Hmu Hst Hd Hcl Hrq Hroom.
  - cbn. rewrite app_nil_r. do 2 f_equal.
    destruct wp as [wc [sz b cl rq sq hd] pl d g st m ms us].
    cbn in Hcl, Hrq. by subst.
  - cbn [Submit_all]. rewrite Submit_running by done.
    cbn [length] in Hroom.
    destruct (Z.ltb_spec (qcount (taskQueue wp)) (dataqsiz (taskQueue wp)));
      [| lia].
    cbn [mbind outcome_bind]. rewrite IH; try done.
    + cbn. by rewrite <- app_assoc.
    + cbn. unfold qcount in *. cbn. rewrite length_app. cbn. lia.
Qed.

(** C3: on a pool built with queue capacity [K >= 0] and started, with
    nobody receiving from the queue, the first [K] calls of [Submit] return
    nil and the next one returns [ErrQueueFull]; the call returns (it does
    not block) and the queue holds the first [K] tasks only. *)
Theorem Submit_queue_full (workerCount K : Z) (h : gmap loc Metrics)
    (wp0 : WorkerPool) (tasks : list (nat * Task)) (extra : nat * Task) :
  0 <= K ->
  Start (NewWorkerPool workerCount K h).1 = Returns wp0 ->
  Z.of_nat (length tasks) = K ->
  exists wp1 : WorkerPool,
    Submit_all (tasks ++ [extra]) wp0
    = Returns (replicate (length tasks) None ++ [Some ErrQueueFull], wp1)
    /\ buf (taskQueue wp1) = tasks.*2
    /\ recvq (taskQueue wp1) = 0%nat.
Proof.
  intros HK Hstart Hlen.
  apply Start_returns in Hstart as (Hmu & Hst & _ & Hd & Hq & _).
  cbn in Hd, Hq.
  assert (Hsz : dataqsiz (taskQueue wp0) = K).
  { rewrite Hq. cbn. destruct (Z.ltb_spec K 0); lia. }
  assert (Hbuf : buf (taskQueue wp0) = []) by by rewrite Hq.
  assert (Hcl : closed (taskQueue wp0) = false) by by rewrite Hq.
  assert (Hrq : recvq (taskQueue wp0) = 0%nat) by by rewrite Hq.
  rewrite Submit_all_app, Submit_all_room; try done.
  - cbn [mbind outcome_bind]. destruct extra as [pick task].
    cbn [Submit_all]. rewrite Submit_running by done.
    cbn [taskQueue with_taskQueue qcount buf dataqsiz].
    rewrite Hbuf, Hsz. cbn [app].
    unfold qcount. cbn [buf]. rewrite length_fmap.
    destruct (Z.ltb_spec (Z.of_nat (length tasks)) K); [lia |].
    cbn. eexists. split; [reflexivity |]. done.
  - unfold qcount. rewrite Hbuf, Hsz. cbn. lia.
Qed.

(** With a receiver parked on the queue, a submission succeeds even when the
    buffer has no free slot: the task goes to the receiver. *)
Lemma Submit_handoff (pick : nat) (task : Task) (wp : WorkerPool) (n : nat) :
  mu wp = unlocked -> started wp = true -> ctx_done wp = false ->
  closed (taskQueue wp) = false -> recvq (taskQueue wp) = S n ->
  exists wp' : WorkerPool,
    Submit pick task wp = Returns (None, wp')
    /\ buf (taskQueue wp') = buf (taskQueue wp)
    /\ handed (taskQueue wp') = handed (taskQueue wp) ++ [task].
Proof.
  intros Hmu Hst Hd Hcl Hrq.
  destruct wp as [wc q pl d g st m ms us]. cbn in Hmu, Hst, Hd, Hcl, Hrq.
  subst m st d. unfold Submit, Submit_select, ready_cases, send_ready.
  cbn -[selectgo]. rewrite Hcl, Hrq. cbn -[selectgo].
  rewrite selectgo_one. unfold chansend. rewrite Hcl, Hrq. cbn.
  eexists. split; [reflexivity |]. done.
Qed.

(** ** Processing a task *)

Lemma send_stmt_open {A : Type} (c : chan A) (x : A) :
  closed c = false ->
  sent_on x c (send_stmt c x).1 (send_stmt c x).2.
Proof.
  intros Hcl. unfold send_stmt, chansend, sent_on. rewrite Hcl.
  destruct (recvq c) as [| n]; cbn.
  - destruct (qcount c <? dataqsiz c); cbn; auto 10.
  - auto 10.
Qed.

Lemma send_Error_spec (c : loc) (err : error) (w : World) :
  heap (send_Error c err w).1 = heap w
  /\ result_chans (send_Error c err w).1 = result_chans w
  /\ forall ch : chan error,
       error_chans w !! c = Some ch -> closed ch = false ->
       exists ch' : chan error,
         error_chans (send_Error c err w).1 = <[c := ch']> (error_chans w)
         /\ sent_on err ch ch' (send_Error c err w).2.
Proof.
  unfold send_Error. destruct (error_chans w !! c) as [ch |].
  - pose proof (send_stmt_open ch err) as Hsent.
    destruct (send_stmt ch err) as [ch' o]. cbn. repeat split.
    intros ch0 [= <-] Hcl. exists ch'. split; [done |]. by apply Hsent.
  - cbn. repeat split. intros ch0 [=].
Qed.

Lemma send_Result_spec (c : loc) (r : Result) (w : World) :
  heap (send_Result c r w).1 = heap w
  /\ error_chans (send_Result c r w).1 = error_chans w
  /\ forall ch : chan Result,
       result_chans w !! c = Some ch -> closed ch = false ->
       exists ch' : chan Result,
         result_chans (send_Result c r w).1 = <[c := ch']> (result_chans w)
         /\ sent_on r ch ch' (send_Result c r w).2.
Proof.
  unfold send_Result. destruct (result_chans w !! c) as [ch |].
  - pose proof (send_stmt_open ch r) as Hsent.
    destruct (send_stmt ch r) as [ch' o]. cbn. repeat split.
    intros ch0 [= <-] Hcl. exists ch'. split; [done |]. by apply Hsent.
  - cbn. repeat split. intros ch0 [=].
Qed.

(** C5: when the handler of a task has run, the metrics are updated with
    its error and the measured duration whatever happens to the sinks
    afterwards.  Then an error goes to the error sink of the task, when it
    has one, and the result sink is left alone; without an error a
    [Result] with the ID and the payload of the task, the output of the
    handler and the measured duration goes to the result sink, when the
    task has one, and the error sink is left alone; without the sink the
    outcome is dropped. *)
Theorem processTask_spec (wp : WorkerPool) (task : Task) (workerID : Z)
    (w : World) (result : value) (err : error) (now : Z)
    (h' : gmap loc Metrics) :
  Handler task (Payload task) (clock w) = Returns (result, err, now) ->
  updateMetrics err (now - clock w) wp (heap w) = Returns h' ->
  heap (processTask wp task workerID w).1 = h'
  /\ match err with
     | Some e =>
         result_chans (processTask wp task workerID w).1 = result_chans w
         /\ match Task_Error task with
            | Some c =>
                forall ch : chan error,
                  error_chans w !! c = Some ch -> closed ch = false ->
                  exists ch' : chan error,
                    error_chans (processTask wp task workerID w).1
                    = <[c := ch']> (error_chans w)
                    /\ sent_on (Some e) ch ch'
                               (processTask wp task workerID w).2
            | None =>
                error_chans (processTask wp task workerID w).1
                = error_chans w
                /\ (processTask wp task workerID w).2 = Returns tt
            end
     | None =>
         error_chans (processTask wp task workerID w).1 = error_chans w
         /\ match Task_Result task with
            | Some c =>
                forall ch : chan Result,
                  result_chans w !! c = Some ch -> closed ch = false ->
                  exists ch' : chan Result,
                    result_chans (processTask wp task workerID w).1
                    = <[c := ch']> (result_chans w)
                    /\ sent_on (mkResult (ID task) (Payload task) result
                                         (now - clock w)) ch ch'
                               (processTask wp task workerID w).2
            | None =>
                result_chans (processTask wp task workerID w).1
                = result_chans w
                /\ (processTask wp task workerID w).2 = Returns tt
            end
     end.
Proof.
  intros Hrun Hupd. unfold processTask, time_Now, time_Since.
  rewrite Hrun. cbn [with_clock clock heap]. rewrite Hupd.
  destruct err as [e |].
  - destruct (Task_Error task) as [c |]; [| done].
    destruct (send_Error_spec c (Some e)
                (with_heap h' (mkWorld now (heap w) (result_chans w)
                                       (error_chans w))))
      as (Hh & Hr & He).
    repeat split; done.
  - destruct (Task_Result task) as [c |]; [| done].
    destruct (send_Result_spec c
                (mkResult (ID task) (Payload task) result (now - clock w))
                (with_heap h' (mkWorld now (heap w) (result_chans w)
                                       (error_chans w))))
      as (Hh & Hr & He).
    repeat split; done.
Qed.

(** ** Snapshots of the metrics *)

(** [updateMetrics] writes the [Metrics] object of the pool and no other. *)
Lemma updateMetrics_frame (err : error) (duration : Z) (wp : WorkerPool)
    (h h' : gmap loc Metrics) (l : loc) :
  updateMetrics err duration wp h = Returns h' ->
  l <> metrics wp -> h' !! l = h !! l.
Proof.
  unfold updateMetrics. destruct (h !! metrics wp) as [m |]; [| done].
  destruct (Lock (metrics_mu m)) as [mu1 | |]; cbn; [| done | done].
  destruct (Unlock mu1) as [mu2 | |]; cbn; [| done | done].
  intros [= <-] Hl. by rewrite lookup_insert_ne.
Qed.

Lemma updateMetrics_all_frame (us : list (error * Z)) (wp : WorkerPool)
    (l : loc) :
  l <> metrics wp ->
  forall h h' : gmap loc Metrics,
    updateMetrics_all us wp h = Returns h' -> h' !! l = h !! l.
Proof.
  intros Hl. induction us as [| [err duration] us IH]; intros h h'.
  - cbn. by intros [= <-].
  - cbn [updateMetrics_all].
    destruct (updateMetrics err duration wp h) as [h1 | |] eqn:Hupd;
      cbn; [| done | done].
    intros Hrest. rewrite (IH _ _ Hrest).
    by apply (updateMetrics_frame err duration wp).
Qed.

(** C8: [GetMetrics] returns a value that carries the four counters of the
    pool as they are at the call, read together, and that shares nothing
    with the pool: wherever the caller keeps it, later updates of the
    metrics leave it as it was returned. *)
Theorem GetMetrics_snapshot (wp : WorkerPool) (h : gmap loc Metrics)
    (m : Metrics) :
  h !! metrics wp = Some m ->
  metrics_mu m = unlocked ->
  exists s : Metrics,
    GetMetrics wp h = Returns (s, h)
    /\ TasksProcessed s = TasksProcessed m
    /\ TasksFailed s = TasksFailed m
    /\ TotalDuration s = TotalDuration m
    /\ AverageDuration s = AverageDuration m
    /\ forall (a : loc) (us : list (error * Z)) (h' : gmap loc Metrics),
         a <> metrics wp ->
         updateMetrics_all us wp (<[a := s]> h) = Returns h' ->
         h' !! a = Some s.
Proof.
  intros Hm Hmu.
  exists (mkMetrics (TasksProcessed m) (TasksFailed m) (TotalDuration m)
                    (AverageDuration m) unlocked).
  split.
  - unfold GetMetrics. rewrite Hm, Hmu. cbn. do 2 f_equal.
    apply insert_id. rewrite Hm. f_equal.
    destruct m as [p f t a mu0]. cbn in Hmu. by subst mu0.
  - repeat split. intros a us h' Ha Hrun.
    rewrite (updateMetrics_all_frame us wp a Ha _ _ Hrun).
    apply lookup_insert_eq.
Qed.

(** *** GetMetrics while workers update the metrics *)

Lemma update_reached_done (err : error) (duration : Z) (m : Metrics) :
  update_reached err duration UpdateDeferred m
  = updateMetrics_locked err duration m.
Proof.
  unfold update_reached, updateMetrics_locked. cbn.
  destruct (0 <? Int64.add (TasksProcessed m) 1); destruct err; reflexivity.
Qed.

Lemma update_reached_next (err : error) (duration : Z) (pc : update_pc)
    (m : Metrics) :
  update_reached err duration (update_next pc) m
  = update_field err duration pc (update_reached err duration pc m).
Proof. destruct pc; reflexivity. Qed.

Lemma update_field_snapshot (err : error) (duration : Z) (pc : update_pc)
    (m m' : Metrics) :
  snapshot m = snapshot m' ->
  snapshot (update_field err duration pc m)
  = snapshot (update_field err duration pc m').
Proof.
  destruct m as [p f t a mu1], m' as [p' f' t' a' mu2]. unfold snapshot. cbn.
  intros [= -> -> -> ->].
  destruct pc; cbn; try reflexivity.
  - destruct (0 <? p'); reflexivity.
  - destruct err; reflexivity.
Qed.

Lemma update_field_mu (err : error) (duration : Z) (pc : update_pc)
    (m : Metrics) :
  metrics_mu (update_field err duration pc m) = metrics_mu m.
Proof.
  destruct pc; cbn; try reflexivity.
  - destruct (0 <? TasksProcessed m); reflexivity.
  - destruct err; reflexivity.
Qed.

Lemma apply_updates_snoc (us : list (error * Z)) (err : error) (duration : Z)
    (m : Metrics) :
  apply_updates (us ++ [(err, duration)]) m
  = updateMetrics_locked err duration (apply_updates us m).
Proof. unfold apply_updates. by rewrite foldl_app. Qed.

Lemma snapshot_with_mu (mu' : RWMutex) (m : Metrics) :
  snapshot (with_metrics_mu mu' m) = snapshot m.
Proof. reflexivity. Qed.

Lemma update_step_continues (err : error) (duration : Z) (pc pc' : update_pc)
    (m m' : Metrics) :
  update_step err duration pc m = Some (Some pc', m') ->
  pc' = update_next pc /\ m' = update_field err duration pc m.
Proof.
  destruct pc; unfold update_step;
    try (destruct (Unlock (metrics_mu m)); done);
    by intros [= <- <-].
Qed.

Lemma update_step_returns (err : error) (duration : Z) (pc : update_pc)
    (m m' : Metrics) :
  update_step err duration pc m = Some (None, m') ->
  pc = UpdateDeferred
  /\ exists mu2 : RWMutex,
       Unlock (metrics_mu m) = Returns mu2 /\ m' = with_metrics_mu mu2 m.
Proof.
  destruct pc; unfold update_step; try done.
  destruct (Unlock (metrics_mu m)) as [mu2 | |]; [| done | done].
  intros [= <-]. eauto.
Qed.

Lemma metrics_safe_initial (m0 : Metrics) :
  metrics_mu m0 = unlocked ->
  metrics_safe m0 (mkMetricsConfig m0 None GetCall []).
Proof. intros Hmu. unfold metrics_safe. cbn. by rewrite Hmu. Qed.

Lemma metrics_safe_step (m0 : Metrics) (c c' : metrics_config) :
  metrics_safe m0 c -> metrics_step c c' -> metrics_safe m0 c'.
Proof.
  intros (Hupd & Hr & Hread & Hres) Hstep.
  destruct Hstep as [err d c mu1 Hnone Hlock | err d pc pc' c m' Hsome Hs
                     | err d pc c m' Hsome Hs | c pc' m' Hs];
    destruct c as [m upd gpc us]; unfold metrics_safe in *;
    cbn [object updating get_at updated] in *.
  - (* an update takes the lock *)
    subst upd. destruct Hupd as [Hw Hsnap].
    destruct m as [p f t a [w r]]. cbn in Hw, Hr, Hlock. subst w.
    destruct r; cbn in Hlock; [| done]. injection Hlock as <-. cbn.
    repeat split; auto.
  - (* an update writes a field *)
    subst upd. destruct Hupd as (Hw & Hg & Hsnap).
    apply update_step_continues in Hs as [-> ->].
    rewrite update_field_mu. repeat split; auto.
    rewrite update_reached_next. by apply update_field_snapshot.
  - (* an update releases the lock and returns *)
    subst upd. destruct Hupd as (Hw & Hg & Hsnap).
    apply update_step_returns in Hs as (-> & mu2 & Hun & ->).
    unfold Unlock in Hun. rewrite Hw in Hun. injection Hun as <-. cbn.
    rewrite apply_updates_snoc, <- update_reached_done.
    repeat split; auto.
    + destruct gpc; cbn in *; done.
    + destruct gpc; cbn in *; try done.
      destruct Hres as (us1 & us2 & -> & ->).
      exists us1, (us2 ++ [(err, d)]). by rewrite app_assoc.
  - (* a step of GetMetrics *)
    assert (Hidle : get_holds gpc = 1%nat ->
                    snapshot m = snapshot (apply_updates us m0)).
    { intros Hone. destruct upd as [[[err d] pc] |].
      - destruct Hupd as (_ & Hzero & _). congruence.
      - by destruct Hupd. }
    destruct gpc as [| | p | p f | p f t | s | s]; cbn in Hs; try done.
    + (* RLock *)
      destruct (metrics_mu m) as [[] r] eqn:Hmu; cbn in Hs; [done |].
      injection Hs as <- <-. cbn in *. subst r.
      destruct upd as [[[err d] pc] |]; cbn in *.
      * destruct Hupd as (Hw & _). try rewrite Hmu in Hw. done.
      * destruct Hupd as (_ & Hsnap). try rewrite Hmu. cbn.
        repeat split; auto.
    + (* the read of TasksProcessed *)
      injection Hs as <- <-. specialize (Hidle eq_refl).
      injection Hidle as Hp Hf Ht Ha. repeat split; auto.
    + (* the read of TasksFailed *)
      injection Hs as <- <-. specialize (Hidle eq_refl).
      injection Hidle as Hp Hf Ht Ha. repeat split; auto.
    + (* the read of TotalDuration *)
      injection Hs as <- <-. specialize (Hidle eq_refl).
      injection Hidle as Hp Hf Ht Ha. destruct Hread as [-> ->].
      repeat split; auto.
    + (* the read of AverageDuration *)
      injection Hs as <- <-. specialize (Hidle eq_refl).
      injection Hidle as Hp Hf Ht Ha. destruct Hread as (-> & -> & ->).
      repeat split; auto. cbn. unfold snapshot. by rewrite Ha.
    + (* deferred RUnlock *)
      destruct (metrics_mu m) as [w [| r]] eqn:Hmu; cbn in Hs, Hr; [done |].
      injection Hs as <- <-. injection Hr as ->. cbn in Hread. subst s.
      destruct upd as [[[err d] pc] |].
      * destruct Hupd as (_ & Hzero & _). done.
      * destruct Hupd as (Hw & Hsnap). try rewrite Hmu in Hw. cbn in Hw.
        subst w. cbn. repeat split; auto.
        exists us, []. by rewrite app_nil_r.
Qed.

Lemma metrics_safe_reachable (m0 : Metrics) (c c' : metrics_config) :
  metrics_safe m0 c -> rtc metrics_step c c' -> metrics_safe m0 c'.
Proof.
  intros Hsafe Hrun. induction Hrun as [| c c1 c2 Hstep _ IH]; [done |].
  apply IH. by apply (metrics_safe_step m0 c).
Qed.

(** Run alone, the steps of each call compose to the function that
    describes the call as a whole. *)
Lemma GetMetrics_value (wp : WorkerPool) (h : gmap loc Metrics) (m : Metrics) :
  h !! metrics wp = Some m ->
  metrics_mu m = unlocked ->
  GetMetrics wp h = Returns (snapshot m, h).
Proof.
  intros Hm Hmu. unfold GetMetrics. rewrite Hm, Hmu. cbn. do 2 f_equal.
  apply insert_id. rewrite Hm. f_equal.
  destruct m as [p f t a mu0]. cbn in Hmu. by subst mu0.
Qed.

Lemma GetMetrics_alone (m : Metrics) (us : list (error * Z)) :
  metrics_mu m = unlocked ->
  rtc metrics_step (mkMetricsConfig m None GetCall us)
      (mkMetricsConfig m None (GetReturned (snapshot m)) us).
Proof.
  intros Hmu. destruct m as [p f t a mu0]. cbn in Hmu. subst mu0.
  eapply rtc_l.
  { by apply (step_get (mkMetricsConfig _ None GetCall us)). }
  eapply rtc_l.
  { by apply (step_get (mkMetricsConfig _ None GetProcessed us)). }
  eapply rtc_l.
  { by apply (step_get (mkMetricsConfig _ None (GetFailed _) us)). }
  eapply rtc_l.
  { by apply (step_get (mkMetricsConfig _ None (GetTotal _ _) us)). }
  eapply rtc_l.
  { by apply (step_get (mkMetricsConfig _ None (GetAverage _ _ _) us)). }
  apply rtc_once.
  by apply (step_get (mkMetricsConfig _ None (GetDeferred _) us)).
Qed.

Lemma updateMetrics_alone (err : error) (duration : Z) (m : Metrics)
    (gpc : get_pc) (us : list (error * Z)) :
  metrics_mu m = unlocked ->
  rtc metrics_step (mkMetricsConfig m None gpc us)
      (mkMetricsConfig (updateMetrics_locked err duration m) None gpc
                       (us ++ [(err, duration)])).
Proof.
  intros Hmu. rewrite <- update_reached_done.
  destruct m as [p f t a mu0]. cbn in Hmu. subst mu0.
  eapply rtc_l.
  { by apply (step_update_begin err duration (mkMetricsConfig _ None gpc us)). }
  eapply rtc_l.
  { by apply (step_update err duration UpdateProcessed UpdateTotal
                (mkMetricsConfig _ (Some _) gpc us)). }
  eapply rtc_l.
  { by apply (step_update err duration UpdateTotal UpdateAverage
                (mkMetricsConfig _ (Some _) gpc us)). }
  eapply rtc_l.
  { by apply (step_update err duration UpdateAverage UpdateFailed
                (mkMetricsConfig _ (Some _) gpc us)). }
  eapply rtc_l.
  { by apply (step_update err duration UpdateFailed UpdateDeferred
                (mkMetricsConfig _ (Some _) gpc us)). }
  apply rtc_once.
  assert (Hend : forall m1 : Metrics,
             metrics_mu m1 = mkRWMutex true 0 ->
             metrics_step
               (mkMetricsConfig m1 (Some (err, duration, UpdateDeferred)) gpc us)
               (mkMetricsConfig (with_metrics_mu unlocked m1) None gpc
                                (us ++ [(err, duration)]))).
  { intros m1 Hm1.
    apply (step_update_end err duration UpdateDeferred
             (mkMetricsConfig m1 (Some (err, duration, UpdateDeferred)) gpc us));
      [done |]. cbn. by rewrite Hm1. }
  cbn [object updating get_at updated].
  match goal with
  | |- metrics_step (mkMetricsConfig ?m1 _ _ _) _ =>
      pose proof (Hend m1) as Hstep
  end.
  rewrite !update_field_mu in Hstep. specialize (Hstep eq_refl).
  replace (update_reached err duration UpdateDeferred
             (mkMetrics p f t a unlocked))
    with (with_metrics_mu unlocked
            (update_field err duration UpdateFailed
               (update_field err duration UpdateAverage
                  (update_field err duration UpdateTotal
                     (update_field err duration UpdateProcessed
                        (with_metrics_mu (mkRWMutex true 0)
                           (mkMetrics p f t a (mkRWMutex false 0)))))))).
  - exact Hstep.
  - unfold update_reached. cbn.
    destruct (0 <? Int64.add p 1); destruct err; reflexivity.
Qed.

(** However the updates of the workers interleave with a call of
    [GetMetrics], the value it returns holds the four counters as they were
    after a whole number of the updates: a read is never torn. *)
Lemma GetMetrics_consistent (m0 s : Metrics) (c : metrics_config) :
  metrics_mu m0 = unlocked ->
  rtc metrics_step (mkMetricsConfig m0 None GetCall []) c ->
  get_at c = GetReturned s ->
  exists us1 us2 : list (error * Z),
    updated c = us1 ++ us2 /\ s = snapshot (apply_updates us1 m0).
Proof.
  intros Hmu Hrun Hat.
  destruct (metrics_safe_reachable m0 _ _ (metrics_safe_initial m0 Hmu) Hrun)
    as (_ & _ & _ & Hres).
  rewrite Hat in Hres. exact Hres.
Qed.

(** ** Submit and Stop as concurrent calls *)

(** The [select] of [Submit] returns [ErrPoolStopped] only when it finds
    the context cancelled; it leaves the mutex, [started] and the context
    alone. *)
Lemma Submit_select_returns (pick : nat) (task : Task) (wp wp' : WorkerPool)
    (err : error) :
  Submit_select pick task wp = Returns (err, wp') ->
  mu wp' = mu wp /\ started wp' = started wp /\ ctx_done wp' = ctx_done wp
  /\ (ctx_done wp = false -> not_stopped_error err).
Proof.
  unfold Submit_select, ready_cases, not_stopped_error.
  destruct (ctx_done wp) eqn:Hd.
  - destruct (selectgo pick _).
    + destruct (chansend (taskQueue wp) task) as [q | |]; cbn; try done.
      intros [= <- <-]. done.
    + cbn. intros [= <- <-]. by rewrite Hd.
    + cbn. intros [= <- <-]. by rewrite Hd.
  - rewrite app_nil_r. destruct (send_ready (taskQueue wp)).
    + rewrite selectgo_one.
      destruct (chansend (taskQueue wp) task) as [q | |]; cbn; try done.
      intros [= <- <-]. cbn. rewrite Hd. auto 6.
    + cbn. intros [= <- <-]. rewrite Hd. auto 6.
Qed.

Lemma safe_initial (wp : WorkerPool) :
  mu wp = unlocked -> started wp = true -> ctx_done wp = false ->
  safe (initial wp).
Proof.
  intros Hmu Hst Hd. unfold safe, initial. cbn. rewrite Hmu, Hst, Hd. done.
Qed.

Local Ltac finish_safe :=
  cbn in *; repeat split; auto; try done; try congruence;
  try (intros; discriminate).

Lemma safe_step (task : Task) (c c' : config) :
  safe c -> step task c c' -> safe c'.
Proof.
  intros (Hw & Hst & Hd & Hr & Hex & Hf) Hstep.
  destruct Hstep as [pick c pc' wp' Hs | c pc' wp' Hs | g c Hg Hret
                     | c wp' Hg Hrecv | c wp' Hg Hpark];
    destruct c as [wp spc tpc]; cbn in *; unfold safe;
    cbn [pool submit_at stop_at].
  - (* a step of Submit *)
    destruct spc as [| | | err | err |]; cbn in Hs; try done.
    + (* RLock *)
      destruct (mu wp) as [[] n] eqn:Hmu; cbn in Hs; [done |].
      injection Hs as <- <-. destruct tpc; finish_safe.
    + (* if !wp.started *)
      destruct (started wp) eqn:Hstd; cbn in Hs; injection Hs as <- <-;
        finish_safe.
      unfold not_stopped_error. auto.
    + (* select *)
      assert (Hnd : ctx_done wp = false).
      { destruct tpc; cbn in *; try done; try congruence;
          by specialize (Hex eq_refl). }
      destruct (Submit_select pick task wp) as [[err wp1] | |] eqn:Hsel;
        [| done |].
      * injection Hs as <- <-.
        apply Submit_select_returns in Hsel as (Hmu1 & Hst1 & Hd1 & Herr).
        rewrite Hmu1, Hst1, Hd1. finish_safe.
      * injection Hs as <- <-. finish_safe.
    + (* deferred RUnlock *)
      destruct (mu wp) as [w [| n]] eqn:Hmu; cbn in Hs, Hr; [done |].
      injection Hs as <- <-. finish_safe.
  - (* a step of Stop *)
    destruct tpc; cbn in Hs, Hw, Hst, Hd; try done.
    + (* Lock *)
      destruct (mu wp) as [[] [| n]] eqn:Hmu; cbn in Hs; try done.
      injection Hs as <- <-. finish_safe.
    + (* if !wp.started *)
      rewrite Hst in Hs. cbn in Hs. injection Hs as <- <-. finish_safe.
    + (* close(wp.taskQueue) *)
      destruct (closechan (taskQueue wp)) as [q | |]; [| done |];
        injection Hs as <- <-; finish_safe.
    + (* wp.cancel() *)
      injection Hs as <- <-. finish_safe.
      all: try (destruct spc; cbn in *; try done; by specialize (Hex eq_refl)).
    + (* wp.wg.Wait() *)
      destruct (wg wp =? 0); [| done]. injection Hs as <- <-. finish_safe.
    + (* wp.started = false *)
      injection Hs as <- <-. finish_safe.
      all: try (destruct spc; cbn in *; try done; by specialize (Hex eq_refl)).
    + (* deferred Unlock *)
      destruct (mu wp) as [[] n] eqn:Hmu; cbn in Hs, Hw; [| done].
      injection Hs as <- <-. finish_safe.
  - (* a unit returns *)
    finish_safe. all: try (destruct spc; done).
  - (* the dispatcher receives *)
    unfold dispatcher_recv in Hrecv.
    destruct (buf (taskQueue wp)); [done |]. injection Hrecv as <-.
    finish_safe. all: try (destruct spc; done).
  - (* the dispatcher parks *)
    unfold dispatcher_park in Hpark.
    destruct (buf (taskQueue wp)); [| done].
    destruct (_ || _); [done |]. injection Hpark as <-.
    finish_safe. all: try (destruct spc; done).
Qed.

Lemma safe_reachable (task : Task) (c c' : config) :
  safe c -> rtc (step task) c c' -> safe c'.
Proof.
  intros Hsafe Hrun. induction Hrun as [| c c1 c2 Hstep _ IH]; [done |].
  apply IH. by apply (safe_step task c).
Qed.

Lemma exec_step (task : Task) (mv : move) (c c' : config) :
  exec task mv c = Some c' -> step task c c'.
Proof.
  destruct mv as [pick | | g | |]; cbn.
  - destruct (submit_step pick task (submit_at c) (pool c))
      as [[pc' wp'] |] eqn:Hs; cbn; [| done].
    intros [= <-]. by apply (step_submit task pick).
  - destruct (stop_step (stop_at c) (pool c)) as [[pc' wp'] |] eqn:Hs;
      cbn; [| done].
    intros [= <-]. by apply step_stop.
  - case_decide as Hg; [| done].
    destruct (can_return g (pool c)) eqn:Hret; [| done].
    intros [= <-]. by apply step_unit_return.
  - case_decide as Hg; [| done].
    destruct (dispatcher_recv (pool c)) as [wp' |] eqn:Hr; cbn; [| done].
    intros [= <-]. by apply step_dispatcher_recv.
  - case_decide as Hg; [| done].
    destruct (dispatcher_park (pool c)) as [wp' |] eqn:Hr; cbn; [| done].
    intros [= <-]. by apply step_dispatcher_park.
Qed.

Lemma run_steps (task : Task) (schedule : list move) (c c' : config) :
  run task schedule c = Some c' -> rtc (step task) c c'.
Proof.
  revert c. induction schedule as [| mv schedule IH]; intros c; cbn.
  - intros [= <-]. apply rtc_refl.
  - destruct (exec task mv c) as [c1 |] eqn:Hexec; cbn; [| done].
    intros Hrun. eapply rtc_l; [by eapply exec_step | by apply IH].
Qed.

(** However the units of the pool and a concurrent submission were
    scheduled while [Stop] ran: once [Stop] has returned and no submission
    is under way, [Submit] returns [ErrPoolNotStarted] and leaves the pool
    as it was. *)
Lemma Submit_after_Stop (task : Task) (wp : WorkerPool) (c : config)
    (pick : nat) (task' : Task) :
  mu wp = unlocked -> started wp = true -> ctx_done wp = false ->
  rtc (step task) (initial wp) c ->
  stop_at c = StopReturned ->
  submit_holds (submit_at c) = 0%nat ->
  Submit pick task' (pool c) = Returns (Some ErrPoolNotStarted, pool c).
Proof.
  intros Hmu Hst Hd Hrun Hstop Hsub.
  pose proof (safe_reachable task _ _ (safe_initial wp Hmu Hst Hd) Hrun)
    as (Hw & Hs & _ & Hr & _ & _).
  rewrite Hstop in Hw, Hs. rewrite Hsub in Hr. cbn in Hw, Hs.
  apply Submit_idle; [| done].
  destruct (mu (pool c)) as [w r]. cbn in Hw, Hr. by subst.
Qed.

(** [Submit] returns [ErrPoolStopped] only from a pool that it finds
    started and with the context cancelled. *)
Lemma Submit_stopped_only (pick : nat) (task : Task) (wp wp' : WorkerPool) :
  Submit pick task wp = Returns (Some ErrPoolStopped, wp') ->
  started wp = true /\ ctx_done wp = true.
Proof.
  unfold Submit. destruct (RLock (mu wp)) as [mu1 | |]; cbn; [| done | done].
  destruct (started wp) eqn:Hst; cbn.
  - destruct (Submit_select _ _ _) as [[err wp1] | |] eqn:Hsel; cbn;
      [| done | done].
    destruct (RUnlock (mu wp1)) as [mu2 | |]; cbn; [| done | done].
    intros [= -> <-].
    apply Submit_select_returns in Hsel as (_ & _ & _ & Herr).
    cbn in Herr. split; [done |].
    destruct (ctx_done wp); [done |].
    destruct (Herr eq_refl) as [? | [? | ?]]; done.
  - destruct (RUnlock mu1) as [mu2 | |]; cbn; done.
Qed.

(** *** The calls run alone

    Run without interference, the steps of each call compose to the
    function that describes the call as a whole. *)

Lemma Submit_alone (pick : nat) (task : Task) (wp wp' : WorkerPool)
    (err : error) (tpc : stop_pc) :
  Submit pick task wp = Returns (err, wp') ->
  rtc (step task) (mkConfig wp SubmitCall tpc)
      (mkConfig wp' (SubmitReturned err) tpc).
Proof.
  unfold Submit.
  destruct (RLock (mu wp)) as [mu1 | |] eqn:Hlock; cbn; [| done | done].
  intros Hrest.
  eapply rtc_l.
  { apply (step_submit task pick (mkConfig wp SubmitCall tpc)).
    cbn. by rewrite Hlock. }
  cbn. destruct (started wp) eqn:Hst; cbn in Hrest.
  - destruct (Submit_select pick task (with_mu mu1 wp))
      as [[err1 wp1] | |] eqn:Hsel; cbn in Hrest; [| done | done].
    destruct (RUnlock (mu wp1)) as [mu2 | |] eqn:Hun; cbn in Hrest;
      [| done | done].
    injection Hrest as <- <-.
    eapply rtc_l.
    { apply (step_submit task pick (mkConfig _ SubmitCheck tpc)).
      cbn. by rewrite Hst. }
    eapply rtc_l.
    { apply (step_submit task pick (mkConfig _ SubmitSelect tpc)).
      cbn. by rewrite Hsel. }
    apply rtc_once.
    apply (step_submit task pick (mkConfig _ (SubmitDeferred err1) tpc)).
    cbn. by rewrite Hun.
  - destruct (RUnlock mu1) as [mu2 | |] eqn:Hun; cbn in Hrest;
      [| done | done].
    injection Hrest as <- <-.
    eapply rtc_l.
    { apply (step_submit task pick (mkConfig _ SubmitCheck tpc)).
      cbn. by rewrite Hst. }
    apply rtc_once.
    apply (step_submit task pick
             (mkConfig _ (SubmitDeferred (Some ErrPoolNotStarted)) tpc)).
    cbn. by rewrite Hun.
Qed.

Lemma units_exit_steps (task : Task) (spc : submit_pc) (tpc : stop_pc)
    (gs : list goroutine) :
  forall wp : WorkerPool,
    units wp = gs -> ctx_done wp = true ->
    rtc (step task) (mkConfig wp spc tpc)
        (mkConfig (units_exit gs wp) spc tpc).
Proof.
  induction gs as [| g gs IH]; intros wp Hunits Hd; cbn [units_exit].
  - apply rtc_refl.
  - eapply rtc_l.
    + apply (step_unit_return task g (mkConfig wp spc tpc)); cbn.
      * rewrite Hunits. apply list_elem_of_here.
      * destruct g; cbn; by rewrite Hd.
    + cbn. apply IH; [| done]. cbn. rewrite Hunits. cbn.
      by case_decide.
Qed.

Lemma Stop_alone (task : Task) (wp wp' : WorkerPool) (spc : submit_pc) :
  Stop wp = Returns wp' ->
  rtc (step task) (mkConfig wp spc StopCall) (mkConfig wp' spc StopReturned).
Proof.
  unfold Stop.
  destruct (Lock (mu wp)) as [mu1 | |] eqn:Hlock; cbn; [| done | done].
  intros Hrest.
  eapply rtc_l.
  { apply (step_stop task (mkConfig wp spc StopCall)). cbn. by rewrite Hlock. }
  cbn. destruct (started wp) eqn:Hst; cbn in Hrest.
  - destruct (closechan (taskQueue wp)) as [q | |] eqn:Hclose; cbn in Hrest;
      [| done | done].
    remember (cancel (with_taskQueue q (with_mu mu1 wp))) as wp2 eqn:Hwp2.
    destruct (wg_Wait wp2) as [wp3 | |] eqn:Hwait; cbn in Hrest;
      [| done | done].
    destruct (Unlock (mu wp3)) as [mu2 | |] eqn:Hun; cbn in Hrest;
      [| done | done].
    injection Hrest as <-.
    assert (Hd2 : ctx_done wp2 = true) by by subst wp2.
    unfold wg_Wait in Hwait. rewrite Hd2 in Hwait.
    destruct (wg (units_exit (units wp2) wp2) =? 0) eqn:Hwg; [| done].
    injection Hwait as <-.
    eapply rtc_l.
    { apply (step_stop task (mkConfig _ spc StopCheck)). cbn. by rewrite Hst. }
    eapply rtc_l.
    { apply (step_stop task (mkConfig _ spc StopClose)). cbn.
      by rewrite Hclose. }
    eapply rtc_l.
    { by apply (step_stop task (mkConfig _ spc StopCancel)). }
    cbn. rewrite <- Hwp2.
    eapply rtc_trans.
    { by apply (units_exit_steps task spc StopWait (units wp2) wp2). }
    eapply rtc_l.
    { apply (step_stop task (mkConfig _ spc StopWait)). cbn. by rewrite Hwg. }
    eapply rtc_l.
    { by apply (step_stop task (mkConfig _ spc StopClear)). }
    apply rtc_once.
    apply (step_stop task (mkConfig _ spc StopDeferred)). cbn.
    cbn in Hun. by rewrite Hun.
  - destruct (Unlock mu1) as [mu2 | |] eqn:Hun; cbn in Hrest; [| done | done].
    injection Hrest as <-.
    eapply rtc_l.
    { apply (step_stop task (mkConfig _ spc StopCheck)). cbn. by rewrite Hst. }
    apply rtc_once.
    apply (step_stop task (mkConfig _ spc StopDeferred)). cbn. by rewrite Hun.
Qed.

(** C9, amended: in every interleaving of one call of [Submit] with one
    call of [Stop] on a running pool, [Submit] returns nil, [ErrQueueFull]
    or [ErrPoolNotStarted], and never [ErrPoolStopped]: while the context
    is cancelled and [started] is still set, [Stop] holds the write lock
    and [Submit] holds no read lock. *)
Theorem Submit_Stop_race (task : Task) (wp : WorkerPool) (c : config) :
  mu wp = unlocked -> started wp = true -> ctx_done wp = false ->
  rtc (step task) (initial wp) c ->
  (forall err : error,
      submit_at c = SubmitReturned err -> not_stopped_error err)
  /\ (ctx_done (pool c) = true -> started (pool c) = true ->
      writer (mu (pool c)) = true /\ readers (mu (pool c)) = 0%nat).
Proof.
  intros Hmu Hst Hd Hrun.
  pose proof (safe_reachable task _ _ (safe_initial wp Hmu Hst Hd) Hrun)
    as (Hw & Hs & Hc & Hr & Hex & Hf).
  split.
  - intros err Hat. rewrite Hat in Hf. exact Hf.
  - intros Hdone Hstd. rewrite Hw, Hr. rewrite Hs in Hstd. rewrite Hc in Hdone.
    destruct (stop_at c); cbn in *; try done; split; auto.
Qed.

End WorkerPool.

(** * Examples

    The pool of the test [TestWorkerPool_QueueFull], [NewWorkerPool(1, 2)],
    with integers as payloads. *)

Definition returned {A : Type} (d : A) (o : outcome A) : A :=
  match o with
  | Returns a => a
  | _ => d
  end.

Definition example_new : WorkerPool (value := Z) := (NewWorkerPool 1 2 ∅).1.

Definition example_heap : gmap loc Metrics :=
  (NewWorkerPool (value := Z) 1 2 ∅).2.

Definition example_running : WorkerPool (value := Z) :=
  returned example_new (Start example_new).

Definition example_stopped : WorkerPool (value := Z) :=
  returned example_running (Stop example_running).

(** A task whose handler takes 5 ns and returns its payload. *)
Definition example_task : Task (value := Z) :=
  mkTask 7 42 (fun p t => Returns (p, None, t + 5)) (Some 1%positive) None.

(** A task whose handler takes 5 ns and fails. *)
Definition example_failing : Task (value := Z) :=
  mkTask 8 42
         (fun p t => Returns (p, Some (HandlerError "processing error"), t + 5))
         None (Some 2%positive).

Example example_running_eq : Start example_new = Returns example_running.
Proof. reflexivity. Qed.

Example example_stopped_eq : Stop example_running = Returns example_stopped.
Proof. reflexivity. Qed.

Example example_running_units :
  units example_running = [worker 0; dispatcher] /\ wg example_running = 2.
Proof. split; reflexivity. Qed.

(** Starting again after [Stop] gives a pool that is marked started while
    its queue is closed and its context cancelled: there [Submit] panics or
    returns [ErrPoolStopped], as the [select] chooses. *)
Example restart_Submit_panics :
  Submit 0 example_task (returned example_stopped (Start example_stopped))
  = Panics "send on closed channel".
Proof. reflexivity. Qed.

Example restart_Submit_stopped :
  exists wp : WorkerPool,
    Submit 1 example_task (returned example_stopped (Start example_stopped))
    = Returns (Some ErrPoolStopped, wp).
Proof. eexists. reflexivity. Qed.

(** Why C4 and C10 speak of counters that do not overflow: at the largest
    [int64] the processed count wraps around, and a count that is not
    positive after the increment leaves the average as it was. *)
Example updateMetrics_wraps :
  TasksProcessed
    (updateMetrics_locked None 1 (mkMetrics Int64.max_int 0 0 0 unlocked))
  = Int64.min_int.
Proof. reflexivity. Qed.

Example updateMetrics_guard :
  updateMetrics_locked None 10 (mkMetrics (-1) 0 0 99 unlocked)
  = mkMetrics 0 0 10 99 unlocked.
Proof. reflexivity. Qed.

(** [Stop] moves first: it takes the lock, closes, cancels, waits for the
    two units and clears [started]; [Submit] then finds the pool stopped. *)
Definition schedule_stop_first : list move :=
  [move_stop; move_stop; move_stop; move_stop;
   move_unit_return (worker 0); move_unit_return dispatcher;
   move_stop; move_stop; move_stop;
   move_submit 0; move_submit 0; move_submit 0].

(** [Submit] moves first and enqueues its task; then [Stop] runs. *)
Definition schedule_submit_first : list move :=
  [move_submit 0; move_submit 0; move_submit 0; move_submit 0;
   move_stop; move_stop; move_stop; move_stop;
   move_unit_return dispatcher; move_unit_return (worker 0);
   move_stop; move_stop; move_stop].

Definition after_stop_first : config (value := Z) :=
  default (initial example_running)
          (run example_task schedule_stop_first (initial example_running)).

Definition after_submit_first : config (value := Z) :=
  default (initial example_running)
          (run example_task schedule_submit_first (initial example_running)).

Example stop_first_run :
  run example_task schedule_stop_first (initial example_running)
  = Some after_stop_first
  /\ submit_at after_stop_first = SubmitReturned (Some ErrPoolNotStarted)
  /\ stop_at after_stop_first = StopReturned.
Proof. split; [| split]; vm_compute; reflexivity. Qed.

Example submit_first_run :
  run example_task schedule_submit_first (initial example_running)
  = Some after_submit_first
  /\ submit_at after_submit_first = SubmitReturned None
  /\ stop_at after_submit_first = StopReturned
  /\ buf (taskQueue (pool after_submit_first)) = [example_task].
Proof. split; [| split; [| split]]; vm_compute; reflexivity. Qed.

(** While [Stop] holds the lock [Submit] cannot move. *)
Example submit_waits_for_stop :
  run example_task [move_stop; move_submit 0] (initial example_running) = None.
Proof. vm_compute. reflexivity. Qed.

(** * Instances of the theorems *)

Lemma Submit_not_started_witness :
  not_started example_new
  /\ Submit 0 example_task example_new
     = Returns (Some ErrPoolNotStarted, example_new).
Proof.
  assert (H : not_started example_new) by (left; by exists 1, 2, ∅).
  split; [exact H |]. exact (Submit_not_started 0 example_task example_new H).
Defined.

Lemma Submit_queue_full_witness :
  exists wp1 : WorkerPool,
    Submit_all ([(0%nat, example_task); (1%nat, example_failing)]
                ++ [(0%nat, example_task)]) example_running
    = Returns (replicate 2 None ++ [Some ErrQueueFull], wp1)
    /\ buf (taskQueue wp1) = [example_task; example_failing]
    /\ recvq (taskQueue wp1) = 0%nat.
Proof.
  apply (Submit_queue_full 1 2 ∅ example_running
           [(0%nat, example_task); (1%nat, example_failing)]
           (0%nat, example_task)).
  - lia.
  - reflexivity.
  - reflexivity.
Defined.

Lemma updateMetrics_spec_witness :
  exists m' : Metrics,
    updateMetrics (Some (HandlerError "processing error")) 7 example_new
                  example_heap
    = Returns (<[metrics example_new := m']> example_heap)
    /\ TasksProcessed m' = 0 + 1
    /\ TotalDuration m' = 0 + 7
    /\ TasksFailed m' = 0 + 1
    /\ AverageDuration m' = TotalDuration m' ÷ TasksProcessed m'
    /\ metrics_mu m' = unlocked.
Proof.
  apply (updateMetrics_spec (Some (HandlerError "processing error")) 7
           example_new example_heap Metrics_zero).
  - reflexivity.
  - reflexivity.
  - unfold Int64.max_int. cbn. lia.
  - unfold Int64.in_range, Int64.min_int, Int64.max_int. cbn. lia.
  - unfold Int64.in_range, Int64.min_int, Int64.max_int. cbn. lia.
Defined.

(** The world of a worker at clock reading 100: the metrics of the new pool,
    a free result sink at address 1 and a free error sink at address 2,
    each with room for one element. *)
Definition example_world : World (value := Z) :=
  mkWorld 100 example_heap {[1%positive := make_chan 1]}
          {[2%positive := make_chan 1]}.

Definition example_heap_failed : gmap loc Metrics :=
  <[metrics example_new := mkMetrics 1 1 5 5 unlocked]> example_heap.

Lemma processTask_spec_witness :
  Handler example_failing (Payload example_failing) (clock example_world)
  = Returns (42, Some (HandlerError "processing error"), 105)
  /\ heap (processTask example_new example_failing 0 example_world).1
     = example_heap_failed
  /\ result_chans (processTask example_new example_failing 0 example_world).1
     = result_chans example_world
  /\ exists ch' : chan error,
       error_chans (processTask example_new example_failing 0 example_world).1
       = <[2%positive := ch']> (error_chans example_world)
       /\ sent_on (Some (HandlerError "processing error")) (make_chan 1) ch'
                  (processTask example_new example_failing 0 example_world).2.
Proof.
  assert (Hrun : Handler example_failing (Payload example_failing)
                         (clock example_world)
                 = Returns (42, Some (HandlerError "processing error"), 105))
    by reflexivity.
  assert (Hupd : updateMetrics (Some (HandlerError "processing error"))
                               (105 - clock example_world) example_new
                               (heap example_world)
                 = Returns example_heap_failed)
    by (vm_compute; reflexivity).
  destruct (processTask_spec example_new example_failing 0 example_world
              42 (Some (HandlerError "processing error")) 105
              example_heap_failed Hrun Hupd) as (Hheap & Hres & Herr).
  split; [exact Hrun |]. split; [exact Hheap |]. split; [exact Hres |].
  apply (Herr (make_chan 1)); reflexivity.
Defined.

Lemma Start_idempotent_witness :
  Start example_new = Returns example_running
  /\ exists wp2 : WorkerPool,
       Start example_running = Returns wp2
       /\ wp2 = example_running
       /\ GetWorkerCount wp2 = GetWorkerCount example_running
       /\ GetWorkerCount example_running = GetWorkerCount example_new
       /\ units wp2 = units example_running
       /\ wg wp2 = wg example_running.
Proof.
  assert (H : Start example_new = Returns example_running)
    by (vm_compute; reflexivity).
  split; [exact H |]. exact (Start_idempotent example_new example_running H).
Defined.

Lemma Stop_not_started_witness :
  not_started example_stopped
  /\ Stop example_stopped = Returns example_stopped
  /\ IsRunning example_stopped = Returns (false, example_stopped).
Proof.
  assert (H : not_started example_stopped).
  { right. exists example_running. vm_compute. reflexivity. }
  split; [exact H |]. exact (Stop_not_started example_stopped H).
Defined.

Lemma GetMetrics_snapshot_witness :
  exists s : Metrics,
    GetMetrics example_new example_heap_failed
    = Returns (s, example_heap_failed)
    /\ TasksProcessed s = 1
    /\ TasksFailed s = 1
    /\ TotalDuration s = 5
    /\ AverageDuration s = 5
    /\ forall (a : loc) (us : list (error * Z)) (h' : gmap loc Metrics),
         a <> metrics example_new ->
         updateMetrics_all us example_new (<[a := s]> example_heap_failed)
         = Returns h' ->
         h' !! a = Some s.
Proof.
  apply (GetMetrics_snapshot example_new example_heap_failed
           (mkMetrics 1 1 5 5 unlocked)).
  - vm_compute. reflexivity.
  - reflexivity.
Defined.

Lemma Submit_Stop_race_witness :
  rtc (step example_task) (initial example_running) after_stop_first
  /\ submit_at after_stop_first = SubmitReturned (Some ErrPoolNotStarted)
  /\ not_stopped_error (Some ErrPoolNotStarted).
Proof.
  assert (Hrun : rtc (step example_task) (initial example_running)
                     after_stop_first).
  { apply (run_steps example_task schedule_stop_first).
    vm_compute. reflexivity. }
  assert (Hat : submit_at after_stop_first
                = SubmitReturned (Some ErrPoolNotStarted))
    by (vm_compute; reflexivity).
  split; [exact Hrun |]. split; [exact Hat |].
  apply (proj1 (Submit_Stop_race example_task example_running after_stop_first
                  eq_refl eq_refl eq_refl Hrun)).
  exact Hat.
Defined.

(** C9 as stated fails: no interleaving of [Submit] with [Stop] on the
    running example pool ends with [Submit] returning [ErrPoolStopped]. *)
Lemma Submit_Stop_race_counterexample :
  ~ exists c : config,
      rtc (step example_task) (initial example_running) c
      /\ submit_at c = SubmitReturned (Some ErrPoolStopped).
Proof.
  intros (c & Hrun & Hat).
  assert (Hsafe : safe (initial example_running))
    by (apply safe_initial; reflexivity).
  destruct (safe_reachable example_task _ _ Hsafe Hrun)
    as (_ & _ & _ & _ & _ & Hf).
  rewrite Hat in Hf. destruct Hf as [? | [? | ?]]; discriminate.
Qed.

Lemma metrics_invariant_witness :
  exists (h' : gmap loc Metrics) (m : Metrics),
    updateMetrics_all
      [(None, 3); (Some (HandlerError "processing error"), 4); (None, 5)]
      (NewWorkerPool (value := Z) 1 2 ∅).1 (NewWorkerPool (value := Z) 1 2 ∅).2
    = Returns h'
    /\ h' !! metrics (NewWorkerPool (value := Z) 1 2 ∅).1 = Some m
    /\ 0 <= TasksFailed m <= TasksProcessed m
    /\ TasksFailed m
       = failures [(None, 3); (Some (HandlerError "processing error"), 4);
                   (None, 5)]
    /\ TasksProcessed m = Z.of_nat 3.
Proof.
  apply (metrics_invariant (value := Z) 1 2 ∅
           [(None, 3); (Some (HandlerError "processing error"), 4);
            (None, 5)]).
  unfold Int64.max_int. cbn. lia.
Defined.
